(** * The dispatch core of [core/echo.go]

    A shallow embedding of the request-dispatch code of the Echo type:
    middleware registration ([Use], [Group]), the adapters that turn the
    accepted callable shapes into the canonical signatures
    ([wrapMiddleware], [wrapHandler] and their helpers), the default HTTP
    error handler built by [New], and the per-request entry point
    [ServeHTTP].

    Go pointers are addresses into explicit stores, slices are headers over
    backing arrays, and a Go panic is an outcome of its own. *)

From Stdlib Require Import String Ascii ZArith List Lia Bool.
From stdpp Require Import gmap strings list.

Local Open Scope string_scope.
Local Open Scope Z_scope.

(** ** Addresses, HTTP errors, status texts *)

(** A pointer is an address into one of the stores below. *)
Definition loc := nat.

(** [HTTPError] of echo.go. *)
Record HTTPError := mkHTTPError { code : Z; message : string }.

(** A Go [error] interface value. Its dynamic type is either [*HTTPError]
    or some other error type, of which only the [Error()] text matters. *)
Inductive error :=
| HTTPErr (he : HTTPError)
| PlainErr (text : string).

(** The [Error] method: the stored message of an [HTTPError], the type's
    own text otherwise. *)
Definition Error (err : error) : string :=
  match err with
  | HTTPErr he => message he
  | PlainErr t => t
  end.

Definition StatusNotFound : Z := 404.
Definition StatusMethodNotAllowed : Z := 405.
Definition StatusInternalServerError : Z := 500.

(** The table behind net/http's [StatusText]: the codes of RFC 2616 and
    418. *)
Definition statusText : list (Z * string) :=
  [ (100, "Continue"); (101, "Switching Protocols");
    (200, "OK"); (201, "Created"); (202, "Accepted");
    (203, "Non-Authoritative Information"); (204, "No Content");
    (205, "Reset Content"); (206, "Partial Content");
    (300, "Multiple Choices"); (301, "Moved Permanently"); (302, "Found");
    (303, "See Other"); (304, "Not Modified"); (305, "Use Proxy");
    (307, "Temporary Redirect");
    (400, "Bad Request"); (401, "Unauthorized"); (402, "Payment Required");
    (403, "Forbidden"); (404, "Not Found"); (405, "Method Not Allowed");
    (406, "Not Acceptable"); (407, "Proxy Authentication Required");
    (408, "Request Timeout"); (409, "Conflict"); (410, "Gone");
    (411, "Length Required"); (412, "Precondition Failed");
    (413, "Request Entity Too Large"); (414, "Request URI Too Long");
    (415, "Unsupported Media Type");
    (416, "Requested Range Not Satisfiable"); (417, "Expectation Failed");
    (418, "I'm a teapot");
    (500, "Internal Server Error"); (501, "Not Implemented");
    (502, "Bad Gateway"); (503, "Service Unavailable");
    (504, "Gateway Timeout"); (505, "HTTP Version Not Supported") ].

Fixpoint assocZ (k : Z) (t : list (Z * string)) : string :=
  match t with
  | [] => EmptyString
  | (k', v) :: t' => if Z.eqb k k' then v else assocZ k t'
  end.

Definition StatusText (c : Z) : string := assocZ c statusText.

(** [NewHTTPError(code, msg...)]: the message defaults to the status text
    and is replaced by the first optional argument when there is one. *)
Definition NewHTTPError (c : Z) (msg : list string) : HTTPError :=
  let he := mkHTTPError c (StatusText c) in
  match msg with
  | m :: _ => mkHTTPError (code he) m
  | [] => he
  end.

(** ** Path normalisation *)

Definition inCutset (a : ascii) (cutset : string) : bool :=
  existsb (Ascii.eqb a) (list_ascii_of_string cutset).

(** [strings.TrimRight(s, cutset)] on byte strings with an ASCII cutset:
    every trailing byte that belongs to the cutset is removed. *)
Fixpoint TrimRight (s cutset : string) : string :=
  match s with
  | EmptyString => EmptyString
  | String a t =>
      match TrimRight t cutset with
      | EmptyString => if inCutset a cutset then EmptyString else String a EmptyString
      | t' => String a t'
      end
  end.

(** The first statement of [ServeHTTP] that touches the path:
    [if r.URL.Path != "/" { r.URL.Path = strings.TrimRight(r.URL.Path, "/") }]. *)
Definition normalizePath (p : string) : string :=
  if String.eqb p "/" then p else TrimRight p "/".

(** [n] slashes in a row. *)
Fixpoint slashes (n : nat) : string :=
  match n with
  | O => EmptyString
  | S k => String "/"%char (slashes k)
  end.

(** The last byte of a string, if any. *)
Fixpoint lastByte (s : string) : option ascii :=
  match s with
  | EmptyString => None
  | String a EmptyString => Some a
  | String _ t => lastByte t
  end.

(** ** Requests, responses and contexts *)

(** The address no allocation ever returns. *)
Definition nil : loc := 0%nat.

(** An [http.ResponseWriter] interface value: nil, the writer of a
    connection, or the [*Response] that a context owns (which wraps an
    underlying writer and tracks whether the header went out). *)
Inductive ResponseWriter :=
| NilWriter
| ConnWriter (id : nat)
| ResponseOf (c : loc).

(** What reaches a client. *)
Inductive wire :=
| WHeader (w : ResponseWriter) (statusCode : Z)
| WBody (w : ResponseWriter) (data : string).

(** The part of [http.Request] the dispatch code reads and writes:
    [r.Method] and [r.URL.Path]. *)
Record Request := mkRequest { reqMethod : string; URLPath : string }.

(** Modelled from the spec: the Response type (response.go), "outbound
    response handle (tracks a committed flag once headers are written)".
    The fields are the ones echo.go touches. *)
Record Response := mkResponse {
  writer : ResponseWriter;
  status : Z;
  committed : bool
}.

(** Modelled from the spec: the Context type (context.go), "inbound request,
    outbound response writer, captured parameter values", with the fields
    echo.go touches and the parameter slots that the router fills. *)
Record Context := mkContext {
  request : loc;
  response : Response;
  pnames : list string;
  pvalues : list string;
  echo : loc
}.

(** Everything request-time code can read and write (what registration
    built is read only while requests are served): the requests and
    contexts behind their pointers, the free list of the [sync.Pool] of
    each Echo (keyed by the address of the Echo that holds it), the
    variables captured by adapter closures, the bytes sent to clients and
    the errors handed to the logger. *)
Record World := mkWorld {
  reqs : gmap loc Request;
  ctxs : gmap loc Context;
  pools : gmap loc (list loc);
  cells : gmap loc (option error);
  sent : list wire;
  logged : list error
}.

Definition setReqs (f : gmap loc Request -> gmap loc Request) (w : World) : World :=
  mkWorld (f (reqs w)) (ctxs w) (pools w) (cells w) (sent w) (logged w).
Definition setCtxs (f : gmap loc Context -> gmap loc Context) (w : World) : World :=
  mkWorld (reqs w) (f (ctxs w)) (pools w) (cells w) (sent w) (logged w).
Definition setPools (f : gmap loc (list loc) -> gmap loc (list loc)) (w : World) : World :=
  mkWorld (reqs w) (ctxs w) (f (pools w)) (cells w) (sent w) (logged w).
Definition setCells (f : gmap loc (option error) -> gmap loc (option error)) (w : World) : World :=
  mkWorld (reqs w) (ctxs w) (pools w) (f (cells w)) (sent w) (logged w).
Definition setSent (f : list wire -> list wire) (w : World) : World :=
  mkWorld (reqs w) (ctxs w) (pools w) (cells w) (f (sent w)) (logged w).
Definition setLogged (f : list error -> list error) (w : World) : World :=
  mkWorld (reqs w) (ctxs w) (pools w) (cells w) (sent w) (f (logged w)).

(** ** Running Go code: a call returns or panics *)

Inductive outcome (A : Type) :=
| Returns (a : A) (w : World)
| Panics (v : string) (w : World).
Arguments Returns {A} a w.
Arguments Panics {A} v w.

(** A computation over the world. *)
Definition Go (A : Type) : Type := World -> outcome A.

Definition ret {A} (a : A) : Go A := fun w => Returns a w.

Definition bind {A B} (m : Go A) (k : A -> Go B) : Go B :=
  fun w => match m w with
           | Returns a w' => k a w'
           | Panics v w' => Panics v w'
           end.

Definition panic {A} (v : string) : Go A := fun w => Panics v w.

Declare Scope go_scope.
Delimit Scope go_scope with go.
Notation "x <- m ;; k" := (bind m (fun x => k))
  (at level 100, m at next level, right associativity) : go_scope.
Notation "m ;;; k" := (bind m (fun _ => k))
  (at level 100, right associativity) : go_scope.
Local Open Scope go_scope.

Definition get : Go World := fun w => Returns w w.
Definition modify (f : World -> World) : Go unit := fun w => Returns tt (f w).

(** Following a pointer: a missing target is Go's nil dereference. *)
Definition deref {A} (o : option A) : Go A :=
  match o with
  | Some a => ret a
  | None => panic "invalid memory address or nil pointer dereference"
  end.

Definition loadCtx (c : loc) : Go Context := w <- get ;; deref (ctxs w !! c).
Definition storeCtx (c : loc) (C : Context) : Go unit :=
  loadCtx c ;;; modify (setCtxs (insert c C)).
Definition loadReq (r : loc) : Go Request := w <- get ;; deref (reqs w !! r).
Definition storeReq (r : loc) (R : Request) : Go unit :=
  loadReq r ;;; modify (setReqs (insert r R)).

(** The canonical signatures. *)
Definition HandlerFunc : Type := loc -> Go (option error).
Definition MiddlewareFunc : Type := HandlerFunc -> HandlerFunc.

(** [http.HandlerFunc], and the [ServeHTTP] method of an [http.Handler]. *)
Definition HTTPHandlerFunc : Type := ResponseWriter -> loc -> Go unit.

(** ** The accepted callable shapes *)

(** A [Middleware] is [interface{}]: the value is given by its dynamic
    type. [M_other] stands for every dynamic type the type switch of
    [wrapMiddleware] has no case for (the nil interface included). *)
Inductive Middleware :=
| M_MiddlewareFunc (m : MiddlewareFunc)
| M_funcHandlerFunc (m : HandlerFunc -> HandlerFunc)
| M_HandlerFunc (m : HandlerFunc)
| M_funcContext (m : loc -> Go (option error))
| M_funcHTTPHandler (m : HTTPHandlerFunc -> HTTPHandlerFunc)
| M_HTTPHandler (serve : HTTPHandlerFunc)
| M_funcHTTP (m : ResponseWriter -> loc -> Go unit)
| M_other (dynamicType : string).

(** A [Handler] is [interface{}] as well; [H_other] stands for the dynamic
    types [wrapHandler] has no case for. *)
Inductive Handler :=
| H_HandlerFunc (h : HandlerFunc)
| H_funcContext (h : loc -> Go (option error))
| H_HTTPHandler (serve : HTTPHandlerFunc)
| H_HTTPHandlerFunc (h : HTTPHandlerFunc)
| H_funcHTTP (h : ResponseWriter -> loc -> Go unit)
| H_other (dynamicType : string).

(** A registration-time call either yields a value or panics. *)
Inductive attempt (A : Type) :=
| Done (a : A)
| Panicked (v : string).
Arguments Done {A} a.
Arguments Panicked {A} v.

(** [wrapHandlerFuncMW]. *)
Definition wrapHandlerFuncMW (m : HandlerFunc) : MiddlewareFunc :=
  fun next => fun c =>
    err <- m c ;;
    match err with
    | Some e => ret (Some e)
    | None => next c
    end.

(** [wrapHTTPHandlerFuncMW]. *)
Definition wrapHTTPHandlerFuncMW (m : HTTPHandlerFunc) : MiddlewareFunc :=
  fun next => fun c =>
    C <- loadCtx c ;;
    (if negb (committed (response C))
     then m (writer (response C)) (request C)
     else ret tt) ;;;
    next c.

Definition setWriterRequest (w : ResponseWriter) (r : loc) (C : Context) : Context :=
  mkContext r (mkResponse w (status (response C)) (committed (response C)))
            (pnames C) (pvalues C) (echo C).

(** The closure built in the [func(http.Handler) http.Handler] case of
    [wrapMiddleware]. Its named result [err] is captured by the inner
    handler, so it lives in a cell of its own for the duration of the
    call. *)
Definition wrapHTTPMiddleware (m : HTTPHandlerFunc -> HTTPHandlerFunc) : MiddlewareFunc :=
  fun h => fun c =>
    w0 <- get ;;
    let err := fresh (dom (cells w0)) in
    modify (setCells (insert err None)) ;;;
    let inner : HTTPHandlerFunc := fun w r =>
      C <- loadCtx c ;;
      storeCtx c (setWriterRequest w r C) ;;;
      res <- h c ;;
      modify (setCells (insert err res)) in
    let served := m inner in
    C <- loadCtx c ;;
    served (writer (response C)) (request C) ;;;
    w1 <- get ;;
    deref (cells w1 !! err).

(** [wrapMiddleware]: the type switch over the dynamic type. *)
Definition wrapMiddleware (m : Middleware) : attempt MiddlewareFunc :=
  match m with
  | M_MiddlewareFunc m => Done m
  | M_funcHandlerFunc m => Done m
  | M_HandlerFunc m => Done (wrapHandlerFuncMW m)
  | M_funcContext m => Done (wrapHandlerFuncMW m)
  | M_funcHTTPHandler m => Done (wrapHTTPMiddleware m)
  | M_HTTPHandler serve => Done (wrapHTTPHandlerFuncMW serve)
  | M_funcHTTP m => Done (wrapHTTPHandlerFuncMW m)
  | M_other _ => Panicked "unknown middleware"
  end.

(** [wrapHandler]: the handlers of the net/http shapes are given the
    context's own [*Response] as their writer. *)
Definition wrapHandler (h : Handler) : attempt HandlerFunc :=
  match h with
  | H_HandlerFunc h => Done h
  | H_funcContext h => Done h
  | H_HTTPHandler serve =>
      Done (fun c => C <- loadCtx c ;; serve (ResponseOf c) (request C) ;;; ret None)
  | H_HTTPHandlerFunc f =>
      Done (fun c => C <- loadCtx c ;; f (ResponseOf c) (request C) ;;; ret None)
  | H_funcHTTP h =>
      Done (fun c => C <- loadCtx c ;; h (ResponseOf c) (request C) ;;; ret None)
  | H_other _ => Panicked "unknown handler"
  end.

(** The shapes each switch has a case for. *)
Definition acceptedMiddleware (m : Middleware) : bool :=
  match m with M_other _ => false | _ => true end.

Definition acceptedHandler (h : Handler) : bool :=
  match h with H_other _ => false | _ => true end.

(** ** Echo values and the registration-time store *)

(** A slice header: the backing array, the length and the capacity. No
    code here reslices, so a slice always starts at index 0 of its array. *)
Record slice := mkSlice { array : loc; len : nat; cap : nat }.

(** The nil slice, the zero value of [Echo.middleware]. *)
Definition nilSlice : slice := mkSlice nil 0 0.

(** An [HTTPErrorHandler] value: nil, the closure that [New] stores in
    [defaultHTTPErrorHandler] (it captures the Echo under construction), or
    a function of the application's. *)
Inductive HTTPErrorHandler :=
| nilHandler
| closureOfNew (e : loc)
| customHandler (f : error -> loc -> Go unit).

(** [Route]; the [Handler] field holds the name of the handler function. *)
Record Route := mkRoute { Method : string; Path : string; HandlerName : string }.

(** The fields of [Echo] that registration and dispatch use. [pool] holds
    what [pool.New] captured: the Echo whose contexts it builds ([nil]
    while [New] is unset); the free list itself is in the [World]. *)
Record Echo := mkEcho {
  prefix : string;
  middleware : slice;
  defaultHTTPErrorHandler : HTTPErrorHandler;
  httpErrorHandler : HTTPErrorHandler;
  pool : loc;
  debug : bool;
  hook : option HTTPHandlerFunc;
  router : loc
}.

Definition setPrefix (p : string) (E : Echo) : Echo :=
  mkEcho p (middleware E) (defaultHTTPErrorHandler E) (httpErrorHandler E)
         (pool E) (debug E) (hook E) (router E).
Definition setMiddleware (s : slice) (E : Echo) : Echo :=
  mkEcho (prefix E) s (defaultHTTPErrorHandler E) (httpErrorHandler E)
         (pool E) (debug E) (hook E) (router E).
Definition setHTTPErrorHandlerField (h : HTTPErrorHandler) (E : Echo) : Echo :=
  mkEcho (prefix E) (middleware E) (defaultHTTPErrorHandler E) h
         (pool E) (debug E) (hook E) (router E).
Definition setDebugField (on : bool) (E : Echo) : Echo :=
  mkEcho (prefix E) (middleware E) (defaultHTTPErrorHandler E) (httpErrorHandler E)
         (pool E) on (hook E) (router E).
Definition setHookField (h : option HTTPHandlerFunc) (E : Echo) : Echo :=
  mkEcho (prefix E) (middleware E) (defaultHTTPErrorHandler E) (httpErrorHandler E)
         (pool E) (debug E) h (router E).

(** What echo.go calls and does not define, in this repository and in Go's
    library: the routing trie with its [Add] and [Find]
    (router.go), [Context.reset] (context.go), [path.Join], the growth
    policy of [append], and the function name that [runtime.FuncForPC]
    reports for a handler ([reflect.Value.Pointer] panics on a value that
    is neither a function nor a pointer). *)
Class Collaborators := {
  Tree : Type;
  NewTree : loc -> Tree;
  Router_Add : string -> string -> HandlerFunc -> loc -> Tree -> attempt Tree;
  Router_Find : Tree -> string -> string -> loc -> Go (HandlerFunc * loc);
  Context_reset : loc -> ResponseWriter -> loc -> Context -> Context;
  path_Join : list string -> string;
  growcap : nat -> nat;
  funcName : Handler -> attempt string
}.

Section Model.
Context {K : Collaborators}.

(** [Router]: the trie and the flat list of registered routes. *)
Record Router := mkRouter { routes : list Route; tree : Tree }.

(** What registration builds and dispatch reads: the Echo structs (those
    embedded in a Group included), the backing arrays of middleware slices
    and the routers, each behind its address. *)
Record Heap := mkHeap {
  echos : gmap loc Echo;
  arrays : gmap loc (list (option MiddlewareFunc));
  routers : gmap loc Router
}.

Definition setEchos (f : gmap loc Echo -> gmap loc Echo) (hp : Heap) : Heap :=
  mkHeap (f (echos hp)) (arrays hp) (routers hp).
Definition setArrays
  (f : gmap loc (list (option MiddlewareFunc)) -> gmap loc (list (option MiddlewareFunc)))
  (hp : Heap) : Heap :=
  mkHeap (echos hp) (f (arrays hp)) (routers hp).
Definition setRouters (f : gmap loc Router -> gmap loc Router) (hp : Heap) : Heap :=
  mkHeap (echos hp) (arrays hp) (f (routers hp)).

(** Registration-time code: it runs over the [Heap], and returns or
    panics. *)
Inductive setupResult (A : Type) :=
| Built (a : A) (hp : Heap)
| Aborted (v : string) (hp : Heap).
Arguments Built {A} a hp.
Arguments Aborted {A} v hp.

Definition Setup (A : Type) : Type := Heap -> setupResult A.

Definition sret {A} (a : A) : Setup A := fun hp => Built a hp.
Definition sbind {A B} (m : Setup A) (k : A -> Setup B) : Setup B :=
  fun hp => match m hp with
            | Built a hp' => k a hp'
            | Aborted v hp' => Aborted v hp'
            end.
Definition spanic {A} (v : string) : Setup A := fun hp => Aborted v hp.
Definition sget : Setup Heap := fun hp => Built hp hp.
Definition smodify (f : Heap -> Heap) : Setup unit := fun hp => Built tt (f hp).
Definition sderef {A} (o : option A) : Setup A :=
  match o with
  | Some a => sret a
  | None => spanic "invalid memory address or nil pointer dereference"
  end.
Definition try {A} (a : attempt A) : Setup A :=
  match a with
  | Done x => sret x
  | Panicked v => spanic v
  end.

End Model.

Arguments Built {K A} a hp.
Arguments Aborted {K A} v hp.

Declare Scope setup_scope.
Delimit Scope setup_scope with setup.
Notation "x <- m ;; k" := (sbind m (fun x => k))
  (at level 100, m at next level, right associativity) : setup_scope.
Notation "m ;;; k" := (sbind m (fun _ => k))
  (at level 100, right associativity) : setup_scope.

Section Registration.
Context {K : Collaborators}.
Local Open Scope setup_scope.

Definition loadEcho (e : loc) : Setup Echo := hp <- sget ;; sderef (echos hp !! e).
Definition storeEcho (e : loc) (E : Echo) : Setup unit :=
  loadEcho e ;;; smodify (setEchos (insert e E)).
Definition loadRouter (r : loc) : Setup Router := hp <- sget ;; sderef (routers hp !! r).
Definition storeRouter (r : loc) (R : Router) : Setup unit :=
  loadRouter r ;;; smodify (setRouters (insert r R)).

(** A new address: never [nil], never one in use. *)
Definition freshLoc (used : gset loc) : loc := fresh ({[nil]} ∪ used).

(** The elements [s[0..len)] of a slice. *)
Definition elems (hp : Heap) (s : slice) : list (option MiddlewareFunc) :=
  take (len s) (default [] (arrays hp !! array s)).

(** [make([]MiddlewareFunc, n)]: a new array of [n] nil functions. *)
Definition make (n : nat) : Setup slice :=
  hp <- sget ;;
  let p := freshLoc (dom (arrays hp)) in
  smodify (setArrays (insert p (replicate n None))) ;;;
  sret (mkSlice p n n).

(** [copy(dst, src)]: the first [min(len(dst), len(src))] elements of
    [src] overwrite those of [dst], in place. *)
Definition copy (dst src : slice) : Setup nat :=
  hp <- sget ;;
  let n := Nat.min (len dst) (len src) in
  let a := default [] (arrays hp !! array dst) in
  (if (0 <? n)%nat
   then smodify (setArrays (insert (array dst) (take n (elems hp src) ++ drop n a)%list))
   else sret tt) ;;;
  sret n.

(** [append(s, f)]: within capacity the element is written into the shared
    backing array; beyond it the elements move to a new, larger array. *)
Definition append (s : slice) (f : MiddlewareFunc) : Setup slice :=
  hp <- sget ;;
  if (len s <? cap s)%nat then
    a <- sderef (arrays hp !! array s) ;;
    smodify (setArrays (insert (array s) (<[len s := Some f]> a))) ;;;
    sret (mkSlice (array s) (S (len s)) (cap s))
  else
    let newcap := Nat.max (S (len s)) (growcap (cap s)) in
    let p := freshLoc (dom (arrays hp)) in
    smodify (setArrays (insert p (elems hp s ++ Some f :: replicate (newcap - S (len s)) None)%list)) ;;;
    sret (mkSlice p (S (len s)) newcap).

(** [Echo.Use]. *)
Fixpoint Use (e : loc) (m : list Middleware) : Setup unit :=
  match m with
  | [] => sret tt
  | h :: rest =>
      E <- loadEcho e ;;
      f <- try (wrapMiddleware h) ;;
      s <- append (middleware E) f ;;
      E' <- loadEcho e ;;
      storeEcho e (setMiddleware s E') ;;;
      Use e rest
  end.

(** Modelled from the spec: [Group.Use] (group.go), which registers
    middleware on the scope of the group, that is on the Echo embedded in
    the Group, the way [Echo.Use] does on its receiver. *)
Definition Group_Use (g : loc) (m : list Middleware) : Setup unit := Use g m.

(** [Echo.Group]. A [*Group] is the address of the Echo it embeds. *)
Definition Group (e : loc) (pfx : string) (m : list Middleware) : Setup loc :=
  E <- loadEcho e ;;
  hp <- sget ;;
  let g := freshLoc (dom (echos hp)) in
  smodify (setEchos (insert g E)) ;;;
  G <- loadEcho g ;;
  storeEcho g (setPrefix (path_Join ["/"; prefix G; pfx]) G) ;;;
  G <- loadEcho g ;;
  mw <- make (len (middleware G)) ;;
  G <- loadEcho g ;;
  copy mw (middleware G) ;;;
  G <- loadEcho g ;;
  storeEcho g (setMiddleware mw G) ;;;
  Group_Use g m ;;;
  sret g.

(** [Echo.add]: the handler is wrapped while the arguments of
    [Router.Add] are evaluated. *)
Definition add (e : loc) (method path : string) (h : Handler) : Setup unit :=
  E <- loadEcho e ;;
  let path := path_Join [prefix E; "/"; path] in
  R <- loadRouter (router E) ;;
  hf <- try (wrapHandler h) ;;
  t <- try (Router_Add method path hf e (tree R)) ;;
  storeRouter (router E) (mkRouter (routes R) t) ;;;
  name <- try (funcName h) ;;
  let r := mkRoute method path name in
  R <- loadRouter (router E) ;;
  storeRouter (router E) (mkRouter (routes R ++ [r])%list (tree R)).

Definition GET : string := "GET".

(** [Echo.Get]. *)
Definition Get (e : loc) (path : string) (h : Handler) : Setup unit := add e GET path h.

(** [Echo.SetHTTPErrorHandler], [Echo.SetDebug], [Echo.Hook]. *)
Definition SetHTTPErrorHandler (e : loc) (h : HTTPErrorHandler) : Setup unit :=
  E <- loadEcho e ;; storeEcho e (setHTTPErrorHandlerField h E).
Definition SetDebug (e : loc) (on : bool) : Setup unit :=
  E <- loadEcho e ;; storeEcho e (setDebugField on E).
Definition Hook (e : loc) (h : HTTPHandlerFunc) : Setup unit :=
  E <- loadEcho e ;; storeEcho e (setHookField (Some h) E).

(** [New]: the Echo with its default error handler, a router of its own
    and a pool whose [New] builds contexts for this Echo. *)
Definition New : Setup loc :=
  hp <- sget ;;
  let e := freshLoc (dom (echos hp)) in
  let rt := freshLoc (dom (routers hp)) in
  smodify (setEchos (insert e
    (mkEcho EmptyString nilSlice (closureOfNew e) nilHandler nil false None nil))) ;;;
  smodify (setRouters (insert rt (mkRouter [] (NewTree e)))) ;;;
  E <- loadEcho e ;;
  storeEcho e (mkEcho (prefix E) (middleware E) (defaultHTTPErrorHandler E)
                      (httpErrorHandler E) (pool E) (debug E) (hook E) rt) ;;;
  E <- loadEcho e ;;
  storeEcho e (mkEcho (prefix E) (middleware E) (defaultHTTPErrorHandler E)
                      (httpErrorHandler E) e (debug E) (hook E) (router E)) ;;;
  E <- loadEcho e ;;
  SetHTTPErrorHandler e (defaultHTTPErrorHandler E) ;;;
  sret e.

End Registration.

(** ** Serving a request *)

Section Dispatch.
Context {K : Collaborators}.
Local Open Scope go_scope.

(** Modelled from the spec: [Response.WriteHeader] (response.go). The
    header goes out once; from then on the response is committed. *)
Definition Response_WriteHeader (c : loc) (statusCode : Z) : Go unit :=
  C <- loadCtx c ;;
  if committed (response C) then ret tt
  else
    storeCtx c (mkContext (request C)
                          (mkResponse (writer (response C)) statusCode true)
                          (pnames C) (pvalues C) (echo C)) ;;;
    modify (setSent (fun l => l ++ [WHeader (writer (response C)) statusCode])%list).

(** Modelled from the spec: [Response.Write] (response.go). *)
Definition Response_Write (c : loc) (data : string) : Go unit :=
  C <- loadCtx c ;;
  modify (setSent (fun l => l ++ [WBody (writer (response C)) data])%list).

Definition newline : string := String (ascii_of_nat 10) EmptyString.

(** net/http's [Error(w, error, code)]: the status line, then the text. *)
Definition http_Error (w : ResponseWriter) (msg : string) (statusCode : Z) : Go unit :=
  match w with
  | ResponseOf c =>
      Response_WriteHeader c statusCode ;;;
      Response_Write c (msg ++ newline)
  | ConnWriter _ =>
      modify (setSent (fun l => l ++ [WHeader w statusCode; WBody w (msg ++ newline)])%list)
  | NilWriter => panic "invalid memory address or nil pointer dereference"
  end.

(** Modelled from the spec: [Logger.Error] of the logging subsystem; the
    world keeps what was handed to it. *)
Definition logger_Error (err : error) : Go unit :=
  modify (setLogged (fun l => l ++ [err])%list).

(** The closure [New] assigns to [defaultHTTPErrorHandler]; [e] is the
    Echo it captured. *)
Definition defaultHandler (hp : Heap) (e : loc) (err : error) (c : loc) : Go unit :=
  let statusCode := StatusInternalServerError in
  let msg := StatusText statusCode in
  let '(statusCode, msg) :=
    match err with
    | HTTPErr he => (code he, message he)
    | _ => (statusCode, msg)
    end in
  E <- deref (echos hp !! e) ;;
  let msg := if debug E then Error err else msg in
  C <- loadCtx c ;;
  (if negb (committed (response C))
   then http_Error (ResponseOf c) msg statusCode
   else ret tt) ;;;
  logger_Error err.

(** Calling an [HTTPErrorHandler] value. *)
Definition callErrorHandler (hp : Heap) (h : HTTPErrorHandler) (err : error) (c : loc) : Go unit :=
  match h with
  | nilHandler => panic "invalid memory address or nil pointer dereference"
  | closureOfNew e => defaultHandler hp e err c
  | customHandler f => f err c
  end.

(** [Echo.DefaultHTTPErrorHandler]. *)
Definition DefaultHTTPErrorHandler (hp : Heap) (e : loc) (err : error) (c : loc) : Go unit :=
  E <- deref (echos hp !! e) ;;
  callErrorHandler hp (defaultHTTPErrorHandler E) err c.

(** Modelled from the spec: [NewContext(nil, new(Response), e)]
    (context.go), a context with no request, a fresh uncommitted
    response and no captured parameters. *)
Definition NewContext (r : loc) (resp : Response) (e : loc) : Context :=
  mkContext r resp [] [] e.

(** [e.pool.Get()], asserted to be a context pointer, with [sync.Pool] as
    a free list: a pooled context if there is one, else what [pool.New]
    builds. *)
Definition pool_Get (hp : Heap) (e : loc) : Go loc :=
  E <- deref (echos hp !! e) ;;
  w <- get ;;
  match default [] (pools w !! e) with
  | c :: rest => modify (setPools (insert e rest)) ;;; ret c
  | [] =>
      if Nat.eqb (pool E) nil
      then panic "interface conversion: interface is nil, not *core.Context"
      else
        let c := freshLoc (dom (ctxs w)) in
        modify (setCtxs (insert c (NewContext nil (mkResponse NilWriter 0 false) (pool E)))) ;;;
        ret c
  end.

(** [e.pool.Put(c)]. *)
Definition pool_Put (e : loc) (c : loc) : Go unit :=
  w <- get ;;
  modify (setPools (insert e (c :: default [] (pools w !! e)))).

(** [e.middleware[i]], with Go's bounds check. *)
Definition index (hp : Heap) (s : slice) (i : nat) : Go (option MiddlewareFunc) :=
  if (i <? len s)%nat
  then a <- deref (arrays hp !! array s) ;; deref (a !! i)
  else panic "index out of range".

(** The loop [for i := len(e.middleware) - 1; i >= 0; i-- { h =
    e.middleware[i](h) }], with [n] standing for [i + 1]. *)
Fixpoint chain (hp : Heap) (s : slice) (n : nat) (h : HandlerFunc) : Go HandlerFunc :=
  match n with
  | O => ret h
  | S i =>
      m <- index hp s i ;;
      match m with
      | Some f => chain hp s i (f h)
      | None => panic "invalid memory address or nil pointer dereference"
      end
  end.

(** The calls [ServeHTTP] makes, in the order it makes them. *)
Inductive call :=
| CallHook (w : ResponseWriter) (r : loc)
| CallPoolGet (e : loc)
| CallFind (method path : string) (c : loc)
| CallReset (c r : loc) (w : ResponseWriter) (e : loc)
| CallChain (c : loc)
| CallErrorHandler (e : loc) (err : error) (c : loc)
| CallPoolPut (e : loc) (c : loc).

(** A computation together with the journal of the calls it made. *)
Definition Traced (A : Type) : Type := World -> list call * outcome A.

Definition tret {A} (a : A) : Traced A := fun w => ([], Returns a w).
Definition tbind {A B} (m : Traced A) (k : A -> Traced B) : Traced B :=
  fun w => match m w with
           | (j, Returns a w') => let '(j', o) := k a w' in ((j ++ j')%list, o)
           | (j, Panics v w') => (j, Panics v w')
           end.
Definition lift {A} (m : Go A) : Traced A := fun w => ([], m w).
Definition calling {A} (ev : call) (m : Go A) : Traced A := fun w => ([ev], m w).

End Dispatch.

Declare Scope traced_scope.
Delimit Scope traced_scope with traced.
Notation "x <- m ;; k" := (tbind m (fun x => k))
  (at level 100, m at next level, right associativity) : traced_scope.
Notation "m ;;; k" := (tbind m (fun _ => k))
  (at level 100, right associativity) : traced_scope.

Section Serve.
Context {K : Collaborators}.
Local Open Scope traced_scope.

(** [Echo.ServeHTTP]. The receiver [e] is reassigned by the result of
    [Router.Find]; [e'] is its value from there on. *)
Definition ServeHTTP (hp : Heap) (e : loc) (w : ResponseWriter) (r : loc) : Traced unit :=
  E <- lift (deref (echos hp !! e)) ;;
  match hook E with
  | Some hk => calling (CallHook w r) (hk w r)
  | None => tret tt
  end ;;;
  R <- lift (loadReq r) ;;
  (if negb (String.eqb (URLPath R) "/")
   then lift (storeReq r (mkRequest (reqMethod R) (TrimRight (URLPath R) "/")))
   else tret tt) ;;;
  c <- calling (CallPoolGet e) (pool_Get hp e) ;;
  Rt <- lift (deref (routers hp !! router E)) ;;
  R <- lift (loadReq r) ;;
  found <- calling (CallFind (reqMethod R) (URLPath R) c)
                   (Router_Find (tree Rt) (reqMethod R) (URLPath R) c) ;;
  let '(h, e') := found in
  calling (CallReset c r w e')
          (bind (loadCtx c) (fun C => storeCtx c (Context_reset r w e' C))) ;;;
  E' <- lift (deref (echos hp !! e')) ;;
  h <- lift (chain hp (middleware E') (len (middleware E')) h) ;;
  err <- calling (CallChain c) (h c) ;;
  match err with
  | Some err => calling (CallErrorHandler e' err c)
                        (callErrorHandler hp (httpErrorHandler E') err c)
  | None => tret tt
  end ;;;
  calling (CallPoolPut e' c) (pool_Put e' c).

End Serve.

(** ** The phases of [ServeHTTP] *)

Section Phases.
Context {K : Collaborators}.
Local Open Scope traced_scope.

(** [if e.hook != nil { e.hook(w, r) }] on its own. *)
Definition runHook (E : Echo) (w : ResponseWriter) (r : loc) : Go unit :=
  match hook E with
  | Some hk => hk w r
  | None => ret tt
  end.

(** The statements of [ServeHTTP] up to and including [c.reset(r, w, e)]:
    the context, the handler and the Echo that [Router.Find] returned. *)
Definition lookup (hp : Heap) (e : loc) (w : ResponseWriter) (r : loc)
  : Traced (loc * HandlerFunc * loc) :=
  E <- lift (deref (echos hp !! e)) ;;
  match hook E with
  | Some hk => calling (CallHook w r) (hk w r)
  | None => tret tt
  end ;;;
  R <- lift (loadReq r) ;;
  (if negb (String.eqb (URLPath R) "/")
   then lift (storeReq r (mkRequest (reqMethod R) (TrimRight (URLPath R) "/")))
   else tret tt) ;;;
  c <- calling (CallPoolGet e) (pool_Get hp e) ;;
  Rt <- lift (deref (routers hp !! router E)) ;;
  R <- lift (loadReq r) ;;
  found <- calling (CallFind (reqMethod R) (URLPath R) c)
                   (Router_Find (tree Rt) (reqMethod R) (URLPath R) c) ;;
  let '(h, e') := found in
  calling (CallReset c r w e')
          (bind (loadCtx c) (fun C => storeCtx c (Context_reset r w e' C))) ;;;
  tret (c, h, e').

(** The journal of the hook statement. *)
Definition hookCalls (E : Echo) (w : ResponseWriter) (r : loc) : list call :=
  match hook E with
  | Some _ => [CallHook w r]
  | None => []
  end.

(** The world after [if r.URL.Path != "/" { r.URL.Path = ... }], for the
    request [R] found behind [r]. *)
Definition pathStatement (r : loc) (R : Request) (w1 : World) : World :=
  if negb (String.eqb (URLPath R) "/")
  then setReqs (insert r (mkRequest (reqMethod R) (TrimRight (URLPath R) "/"))) w1
  else w1.

(** The world after [e'.pool.Put(c)]. *)
Definition put (e' c : loc) (w : World) : World :=
  setPools (insert e' (c :: default [] (pools w !! e'))) w.

(** The middleware loop of [ServeHTTP] on the Echo [e']. *)
Definition compose (hp : Heap) (e' : loc) (h : HandlerFunc) : Go HandlerFunc :=
  bind (deref (echos hp !! e'))
       (fun E' => chain hp (middleware E') (len (middleware E')) h).

(** The statements of [ServeHTTP] from "Execute chain" on. *)
Definition execute (hp : Heap) (e' c : loc) (h : HandlerFunc) : Traced unit :=
  E' <- lift (deref (echos hp !! e')) ;;
  err <- calling (CallChain c) (h c) ;;
  match err with
  | Some err => calling (CallErrorHandler e' err c)
                        (callErrorHandler hp (httpErrorHandler E') err c)
  | None => tret tt
  end ;;;
  calling (CallPoolPut e' c) (pool_Put e' c).

(** How often the error handler was called, according to a journal. *)
Fixpoint errorHandlerCalls (j : list call) : nat :=
  match j with
  | [] => 0
  | CallErrorHandler _ _ _ :: j' => S (errorHandlerCalls j')
  | _ :: j' => errorHandlerCalls j'
  end.

(** The position of the first call of a kind in a journal. *)
Fixpoint position (p : call -> bool) (j : list call) : option nat :=
  match j with
  | [] => None
  | ev :: j' => if p ev then Some 0%nat else option_map S (position p j')
  end.

Definition isFind (ev : call) : bool :=
  match ev with CallFind _ _ _ => true | _ => false end.
Definition isReset (ev : call) : bool :=
  match ev with CallReset _ _ _ _ => true | _ => false end.
Definition isPoolGet (ev : call) : bool :=
  match ev with CallPoolGet _ => true | _ => false end.

(** [a] happens strictly before [b]. *)
Definition before (a b : option nat) : Prop :=
  match a, b with
  | Some i, Some k => (i < k)%nat
  | _, _ => False
  end.

End Phases.

(** ** Well-formed slices *)

Section Shapes.
Context {K : Collaborators}.

(** A slice is well formed when it is the nil slice or its backing array
    is allocated and as long as its capacity, which bounds its length. *)
Definition wfSlice (hp : Heap) (s : slice) : Prop :=
  (len s <= cap s)%nat /\
  ((cap s = 0%nat /\ array s = nil) \/
   exists a, arrays hp !! array s = Some a /\ length a = cap s).

(** The slice [s] holds exactly the functions [fs], none of them nil. *)
Definition holds (hp : Heap) (s : slice) (fs : list MiddlewareFunc) : Prop :=
  elems hp s = map Some fs /\ length fs = len s.

(** An address [a] that a slice [s] does not use and that no later
    allocation can return. *)
Definition apart (hp : Heap) (a : loc) (s : slice) : Prop :=
  (a ∈ dom (arrays hp) \/ a = nil) /\ a <> array s.

(** The middleware of the Echo at [e], as [ServeHTTP] reads it. *)
Definition middlewareOf (hp : Heap) (e : loc) : option (list (option MiddlewareFunc)) :=
  match echos hp !! e with
  | Some E => Some (elems hp (middleware E))
  | None => None
  end.

(** The middleware chain [f1 (f2 (... (fn h)))]. *)
Definition composed (fs : list MiddlewareFunc) (h : HandlerFunc) : HandlerFunc :=
  fold_right (fun f k => f k) h fs.

(** [fs] is what [wrapMiddleware] makes of [ms], element by element. *)
Definition wrapped (ms : list Middleware) (fs : list MiddlewareFunc) : Prop :=
  Forall2 (fun m f => wrapMiddleware m = Done f) ms fs.

End Shapes.

(** ** Observers *)

Local Open Scope go_scope.

(** A middleware that writes a mark on the response when the request
    reaches it and another when the response comes back to it. *)
Definition observer (tag : string) : MiddlewareFunc :=
  fun next => fun c =>
    Response_Write c ("<" ++ tag) ;;;
    err <- next c ;;
    Response_Write c (tag ++ ">") ;;;
    ret err.

(** A handler that writes its name and succeeds. *)
Definition endpoint (name : string) : HandlerFunc :=
  fun c => Response_Write c name ;;; ret None.

(** A handler that fails with the given error without writing. *)
Definition failing (err : error) : HandlerFunc := fun _ => ret (Some err).

(** The sentinel handlers of echo.go. *)
Definition notFoundHandler : HandlerFunc :=
  fun _ => ret (Some (HTTPErr (NewHTTPError StatusNotFound []))).
Definition methodNotAllowedHandler : HandlerFunc :=
  fun _ => ret (Some (HTTPErr (NewHTTPError StatusMethodNotAllowed []))).

(** ** A concrete set of collaborators *)

Local Open Scope string_scope.

(** Modelled from the spec: a router over static routes only. [Find]
    returns the handler registered under the exact method and path,
    together with the Echo it was registered on; a path known under
    another method gives the method-not-allowed sentinel, an unknown path
    the not-found sentinel, both with the Echo the router was made for. *)
Record staticTree := mkStaticTree {
  rootEcho : loc;
  entries : list (string * string * HandlerFunc * loc)
}.

Definition staticAdd (method path : string) (h : HandlerFunc) (e : loc) (t : staticTree)
  : attempt staticTree :=
  Done (mkStaticTree (rootEcho t) (entries t ++ [(method, path, h, e)])%list).

Fixpoint staticLookup (method path : string) (es : list (string * string * HandlerFunc * loc))
  : option (HandlerFunc * loc) :=
  match es with
  | [] => None
  | (m, p, h, e) :: es' =>
      if String.eqb m method && String.eqb p path then Some (h, e)
      else staticLookup method path es'
  end.

Definition staticFind (t : staticTree) (method path : string) (c : loc)
  : Go (HandlerFunc * loc) :=
  match staticLookup method path (entries t) with
  | Some found => ret found
  | None =>
      if existsb (fun '(_, p, _, _) => String.eqb p path) (entries t)
      then ret (methodNotAllowedHandler, rootEcho t)
      else ret (notFoundHandler, rootEcho t)
  end.

(** Modelled from the spec: [Context.reset], which "clears params and
    rebinds request/response at the start of each request". *)
Definition specReset (r : loc) (w : ResponseWriter) (e : loc) (C : Context) : Context :=
  mkContext r (mkResponse w 0 false) [] [] e.

(** [path.Clean] and [path.Join] of Go's library. *)
Fixpoint splitSlash (s cur : string) : list string :=
  match s with
  | EmptyString => [cur]
  | String a t =>
      if Ascii.eqb a "/"%char then cur :: splitSlash t EmptyString
      else splitSlash t (cur ++ String a EmptyString)
  end.

Definition cleanStep (rooted : bool) (stack : list string) (comp : string) : list string :=
  if String.eqb comp EmptyString || String.eqb comp "." then stack
  else if String.eqb comp ".." then
    match stack with
    | top :: rest => if String.eqb top ".." then comp :: stack else rest
    | [] => if rooted then stack else [comp]
    end
  else comp :: stack.

Definition Clean (p : string) : string :=
  let rooted := match p with String a _ => Ascii.eqb a "/"%char | _ => false end in
  let comps := rev (fold_left (cleanStep rooted) (splitSlash p EmptyString) []) in
  let out := (if rooted then "/" else EmptyString) ++ String.concat "/" comps in
  if String.eqb out EmptyString then "." else out.

Fixpoint Join (elem : list string) : string :=
  match elem with
  | [] => EmptyString
  | e :: rest => if String.eqb e EmptyString then Join rest else Clean (String.concat "/" elem)
  end.

(** The doubling that [append] does for small slices. *)
Definition double (c : nat) : nat := (2 * c)%nat.

Definition shapeName (h : Handler) : attempt string :=
  match h with
  | H_HandlerFunc _ => Done "core.HandlerFunc"
  | H_funcContext _ => Done "func(c *core.Context) error"
  | H_HTTPHandler _ => Done "http.Handler"
  | H_HTTPHandlerFunc _ => Done "http.HandlerFunc"
  | H_funcHTTP _ => Done "func(w http.ResponseWriter, r *http.Request)"
  | H_other t => Done t
  end.

Definition staticRouting : Collaborators := {|
  Tree := staticTree;
  NewTree := fun e => mkStaticTree e [];
  Router_Add := staticAdd;
  Router_Find := staticFind;
  Context_reset := specReset;
  path_Join := Join;
  growcap := double;
  funcName := shapeName
|}.


(** The marks that observers [tags], outermost first, leave around the
    mark of the endpoint [name]. *)
Definition marks (wr : ResponseWriter) (tags : list string) (name : string) : list wire :=
  (map (fun t => WBody wr ("<" ++ t)) tags ++ [WBody wr name] ++
   map (fun t => WBody wr (t ++ ">")) (rev tags))%list.

(** ** The default error handler, in the words of the specification *)

(** A typed HTTP error is mapped to its status code, any other error to
    a generic 500. *)
Definition specStatus (err : error) : Z :=
  match err with
  | HTTPErr he => code he
  | PlainErr _ => 500
  end.

(** In debug mode the client sees the underlying error text, otherwise the
    stored message of a typed HTTP error or the generic status text. *)
Definition specMessage (dbg : bool) (err : error) : string :=
  if dbg then Error err
  else match err with
       | HTTPErr he => message he
       | PlainErr _ => "Internal Server Error"
       end.

(** The context once its response header went out with a status. *)
Definition commit (statusCode : Z) (C : Context) : Context :=
  mkContext (request C) (mkResponse (writer (response C)) statusCode true)
            (pnames C) (pvalues C) (echo C).


(** ** A small site *)

Definition emptyHeap : @Heap staticRouting := mkHeap ∅ ∅ ∅.

Definition heapOf {A} (r : @setupResult staticRouting A) : @Heap staticRouting :=
  match r with
  | Built _ hp => hp
  | Aborted _ hp => hp
  end.

(** The store right after [New()]: the Echo at address 1 with its router. *)
Definition newHeap : @Heap staticRouting := heapOf (New emptyHeap).

Definition newEcho : Echo :=
  mkEcho EmptyString nilSlice (closureOfNew 1%nat) (closureOfNew 1%nat)
         1%nat false None 1%nat.

Definition newRouter : @Router staticRouting :=
  @mkRouter staticRouting [] (mkStaticTree 1%nat []).

Definition siteMiddleware : list Middleware :=
  [M_MiddlewareFunc (observer "a"); M_funcHandlerFunc (observer "b")].

(** [e := New(); e.Use(a, b); e.Get("/hello", hello); e.Get("/fail", fail)]. *)
Definition site : @Setup staticRouting loc :=
  (e <- New ;;
   Use e siteMiddleware ;;;
   Get e "/hello" (H_HandlerFunc (endpoint "hello")) ;;;
   Get e "/fail" (H_funcContext (failing (PlainErr "boom"))) ;;;
   sret e)%setup.

Definition siteHeap : @Heap staticRouting := heapOf (site emptyHeap).

(** The Echo and the router of the site, as [site] leaves them. *)
Definition siteEcho : Echo :=
  mkEcho EmptyString (mkSlice 2%nat 2%nat 2%nat) (closureOfNew 1%nat) (closureOfNew 1%nat)
         1%nat false None 1%nat.

Definition siteRouter : @Router staticRouting :=
  @mkRouter staticRouting
    [mkRoute "GET" "/hello" "core.HandlerFunc";
     mkRoute "GET" "/fail" "func(c *core.Context) error"]
    (mkStaticTree 1%nat [("GET", "/hello", endpoint "hello", 1%nat);
                         ("GET", "/fail", failing (PlainErr "boom"), 1%nat)]).

(** A world in which a GET request for [path] sits at address 1 and
    nothing else has happened yet. *)
Definition arrival (path : string) : World :=
  mkWorld {[ 1%nat := mkRequest "GET" path ]} ∅ ∅ ∅ [] [].

(** The world once the empty pool has built its first context. *)
Definition pooled (w : World) : World :=
  setCtxs (insert 1%nat (NewContext nil (mkResponse NilWriter 0 false) 1%nat)) w.

(** A world that holds one context, and a context bound to a live
    connection. *)
Definition served (c : loc) (C : Context) : World :=
  mkWorld ∅ {[ c := C ]} ∅ ∅ [] [].

Definition liveContext : Context :=
  mkContext 1%nat (mkResponse (ConnWriter 7) 0 false) [] [] 1%nat.

(** A router whose [Find] reports, through the handler it returns, whether
    the context it was given is already bound to a request. *)
Definition probingFind (t : staticTree) (method path : string) (c : loc)
  : Go (HandlerFunc * loc) :=
  bind (loadCtx c) (fun C =>
    ret (endpoint (if Nat.eqb (request C) nil
                   then "Find saw a context without a request"
                   else "Find saw a context bound to a request"),
         rootEcho t)).

Definition probingRouting : Collaborators := {|
  Tree := staticTree;
  NewTree := fun e => mkStaticTree e [];
  Router_Add := staticAdd;
  Router_Find := probingFind;
  Context_reset := specReset;
  path_Join := Join;
  growcap := double;
  funcName := shapeName
|}.

Definition probingHeap : @Heap probingRouting :=
  match @New probingRouting (mkHeap ∅ ∅ ∅) with
  | Built _ hp => hp
  | Aborted _ hp => hp
  end.

(** * More of echo.go *)

(** ** Reversing a route: [URI] *)

(** The inner loop of [URI], [for ; i < l && r.Path[i] != '/'; i++ {}], with
    the index [i] kept as the rest [r.Path[i:]] of the path. *)
Fixpoint skipSegment (s : string) : string :=
  match s with
  | EmptyString => EmptyString
  | String a t => if Ascii.eqb a "/"%char then s else skipSegment t
  end.

(** The loop of [URI] over the bytes of [r.Path], one iteration for each
    unit of [fuel]; [s] is [r.Path[i:]], the result is what the iterations
    write to the buffer, and [params] holds the [%v] renderings of the
    parameters. *)
Fixpoint fillPath (fuel : nat) (s : string) (n : nat) (params : list string) : string :=
  match fuel with
  | O => EmptyString
  | S fuel' =>
      match s with
      | EmptyString => EmptyString
      | String a t =>
          if Ascii.eqb a ":"%char && (n <? length params)%nat then
            match skipSegment s with
            | EmptyString => nth n params EmptyString
            | String b t' =>
                nth n params EmptyString ++ String b (fillPath fuel' t' (S n) params)
            end
          else String a (fillPath fuel' t n params)
      end
  end.

(** The loop of [URI] over the routes: the first route registered under
    the handler name [hn] is filled in, and the loop breaks. *)
Fixpoint reverseRoute (rs : list Route) (hn : string) (params : list string) : string :=
  match rs with
  | [] => EmptyString
  | r :: rest =>
      if String.eqb (HandlerName r) hn
      then fillPath (String.length (Path r)) (Path r) 0 params
      else reverseRoute rest hn params
  end.

(** [Echo.URI]: the name of the handler is looked up among the registered
    routes. [Echo.URL] is its alias, [Echo.Routes] returns the routes. *)
Definition URI {K : Collaborators} (e : loc) (h : Handler) (params : list string)
  : Setup string :=
  (hn <- try (funcName h) ;;
   E <- loadEcho e ;;
   R <- loadRouter (router E) ;;
   sret (reverseRoute (routes R) hn params))%setup.

Definition URL {K : Collaborators} (e : loc) (h : Handler) (params : list string)
  : Setup string := URI e h params.

Definition Routes {K : Collaborators} (e : loc) : Setup (list Route) :=
  (E <- loadEcho e ;;
   R <- loadRouter (router E) ;;
   sret (routes R))%setup.

(** Route templates, to state what [URI] computes. [lacks a s]: the byte
    [a] does not occur in [s]. *)
Fixpoint lacks (a : ascii) (s : string) : bool :=
  match s with
  | EmptyString => true
  | String b t => negb (Ascii.eqb b a) && lacks a t
  end.

Definition beginsWithSlash (s : string) : bool :=
  match s with
  | String b _ => Ascii.eqb b "/"%char
  | EmptyString => false
  end.

(** What may follow a parameter name: the end of the path or a slash. *)
Definition endsName (s : string) : bool :=
  match s with
  | String b _ => Ascii.eqb b "/"%char
  | EmptyString => true
  end.

(** The template [s1 :n1 s2 :n2 ... tail]. *)
Fixpoint template (pieces : list (string * string)) (tail : string) : string :=
  match pieces with
  | [] => tail
  | (s, nm) :: rest => s ++ String ":"%char (nm ++ template rest tail)
  end.

(** Every static part is free of colons, every parameter name is free of
    slashes and is followed by a slash or by the end of the template. *)
Fixpoint placeholders (pieces : list (string * string)) (tail : string) : bool :=
  match pieces with
  | [] => true
  | (s, nm) :: rest =>
      lacks ":"%char s && lacks "/"%char nm &&
      match rest with
      | [] => endsName tail
      | (s', _) :: _ => beginsWithSlash s'
      end &&
      placeholders rest tail
  end.

(** The template with its parameters replaced by [ps], as far as they
    reach. *)
Fixpoint filled (pieces : list (string * string)) (ps : list string) (tail : string)
  : string :=
  match pieces, ps with
  | (s, _) :: rest, p :: ps' => s ++ p ++ filled rest ps' tail
  | _, _ => template pieces tail
  end.

(** ** Registering routes by method *)

Definition CONNECT : string := "CONNECT".
Definition DELETE : string := "DELETE".
Definition HEAD : string := "HEAD".
Definition OPTIONS : string := "OPTIONS".
Definition PATCH : string := "PATCH".
Definition POST : string := "POST".
Definition PUT : string := "PUT".
Definition TRACE : string := "TRACE".

(** The array [methods] of echo.go. *)
Definition methods : list string :=
  [CONNECT; DELETE; GET; HEAD; OPTIONS; PATCH; POST; PUT; TRACE].

Section Verbs.
Context {K : Collaborators}.
Local Open Scope setup_scope.

(** [Echo.Connect], [Delete], [Head], [Options], [Patch], [Post], [Put] and
    [Trace] ([Get] is above). *)
Definition Connect (e : loc) (path : string) (h : Handler) : Setup unit := add e CONNECT path h.
Definition Delete (e : loc) (path : string) (h : Handler) : Setup unit := add e DELETE path h.
Definition Head (e : loc) (path : string) (h : Handler) : Setup unit := add e HEAD path h.
Definition Options (e : loc) (path : string) (h : Handler) : Setup unit := add e OPTIONS path h.
Definition Patch (e : loc) (path : string) (h : Handler) : Setup unit := add e PATCH path h.
Definition Post (e : loc) (path : string) (h : Handler) : Setup unit := add e POST path h.
Definition Put (e : loc) (path : string) (h : Handler) : Setup unit := add e PUT path h.
Definition Trace (e : loc) (path : string) (h : Handler) : Setup unit := add e TRACE path h.

(** The loop [for _, m := range ms { e.add(m, path, h) }]. *)
Fixpoint addEach (e : loc) (ms : list string) (path : string) (h : Handler) : Setup unit :=
  match ms with
  | [] => sret tt
  | m :: rest => add e m path h ;;; addEach e rest path h
  end.

(** [Echo.Any]. *)
Definition Any (e : loc) (path : string) (h : Handler) : Setup unit :=
  addEach e methods path h.

(** [Echo.Match]: without methods the route is registered for GET. *)
Definition Match (e : loc) (path : string) (h : Handler) (method : list string) : Setup unit :=
  let method := if Nat.eqb (length method) 0 then (method ++ [GET])%list else method in
  addEach e method path h.

(** The store a registration-time call leaves, whether it returned or
    panicked. *)
Definition heapAfter {A} (r : setupResult A) : Heap :=
  match r with
  | Built _ hp => hp
  | Aborted _ hp => hp
  end.

End Verbs.

(** ** More about journals *)

Definition isPoolPut (ev : call) : bool :=
  match ev with
  | CallPoolPut _ _ => true
  | _ => false
  end.

(** No call of the journal puts a context back. *)
Definition neverPuts (j : list call) : Prop := Forall (fun ev => isPoolPut ev = false) j.

(** ** Binding a request body *)

Definition CharsetUTF8 : string := "charset=utf-8".
Definition ApplicationJSON : string := "application/json".
Definition ApplicationJSONCharsetUTF8 : string := ApplicationJSON ++ "; " ++ CharsetUTF8.
Definition ApplicationXML : string := "application/xml".
Definition ApplicationXMLCharsetUTF8 : string := ApplicationXML ++ "; " ++ CharsetUTF8.
Definition ApplicationForm : string := "application/x-www-form-urlencoded".
Definition ApplicationJavaScript : string := "application/javascript".
Definition TextHTML : string := "text/html".
Definition TextPlain : string := "text/plain".
Definition MultipartForm : string := "multipart/form-data".

Definition UnsupportedMediaType : error := PlainErr "unsupported media type".

(** [strings.HasPrefix(s, p)]. *)
Definition HasPrefix (s p : string) : bool := String.prefix p s.

(** [binder.Bind]. [ct] is [r.Header.Get(ContentType)]; [decodeJSON] and
    [decodeXML] are the decoders of encoding/json and encoding/xml at work
    on [r.Body] and the target [i]. *)
Definition Bind (ct : string) (decodeJSON decodeXML : Go (option error)) : Go (option error) :=
  let err := Some UnsupportedMediaType in
  if HasPrefix ct ApplicationJSON then decodeJSON
  else if HasPrefix ct ApplicationXML then decodeXML
  else ret err.

(** ** Serving files *)

Definition StatusForbidden : Z := 403.
Definition indexPage : string := "index.html".

(** What [os.FileInfo] and [http.File] show to this code. *)
Record FileInfo := mkFileInfo { Name : string; IsDir : bool }.
Record File := mkFile { Stat : FileInfo; Readdir : error + list FileInfo }.

(** An [http.FileSystem]: [Open] yields a file or fails. *)
Definition FileSystem : Type := string -> option File.

(** What serving files takes from Go's library and from the machine:
    [http.Dir] (the directories of the disk), [http.ServeContent] (given
    the context whose response and request it is called with, the name and
    the file) and [filepath.Join]. *)
Class FileServing := {
  Dir : string -> FileSystem;
  ServeContent : loc -> string -> File -> Go unit;
  filepath_Join : list string -> string
}.

(** [filepath.Ext] with [/] as the separator: the suffix that starts at the
    last dot of the last element of the path. *)
Fixpoint hasDotOrSlash (s : string) : bool :=
  match s with
  | EmptyString => false
  | String a t => Ascii.eqb a "."%char || Ascii.eqb a "/"%char || hasDotOrSlash t
  end.

Fixpoint Ext (path : string) : string :=
  match path with
  | EmptyString => EmptyString
  | String a t =>
      if hasDotOrSlash t then Ext t
      else if Ascii.eqb a "."%char then path
      else EmptyString
  end.

(** [filepath.Split] with [/] as the separator: the directory up to and
    including the last slash, and the file after it. *)
Fixpoint Split (path : string) : string * string :=
  match path with
  | EmptyString => (EmptyString, EmptyString)
  | String a t =>
      match Split t with
      | (EmptyString, f) =>
          if Ascii.eqb a "/"%char then (String a EmptyString, f)
          else (EmptyString, String a f)
      | (d, f) => (String a d, f)
      end
  end.

(** [Echo.Blackfile] on the map [e.blackfile]. *)
Definition Blackfile (ext : list string) (blackfile : gmap string bool) : gmap string bool :=
  fold_left (fun m v => <[v := true]> m) ext blackfile.

(** The map [New] stores in [blackfile]. *)
Definition newBlackfile : gmap string bool := {[ ".html" := true ]}.

(** [e.blackfile[ext]]: a missing key reads as false. *)
Definition blacklisted (blackfile : gmap string bool) (ext : string) : bool :=
  default false (blackfile !! ext).

Definition doubleQuote : string := String (ascii_of_nat 34) EmptyString.

(** The body chunks among what went out, in order. *)
Definition bodies (l : list wire) : list string :=
  flat_map (fun x => match x with WBody _ data => [data] | WHeader _ _ => [] end) l.

Section Files.
Context {F : FileServing}.

(** One line of the directory index of [listDir]. *)
Definition entryLine (d : FileInfo) : string :=
  let name := Name d in
  let color := "#212121" in
  let '(color, name) := if IsDir d then ("#e91e63", name ++ "/") else (color, name) in
  "<a href=" ++ doubleQuote ++ name ++ doubleQuote ++
  " style=" ++ doubleQuote ++ "color: " ++ color ++ ";" ++ doubleQuote ++ ">" ++
  name ++ "</a>" ++ newline.

Fixpoint writeEntries (dirs : list FileInfo) (c : loc) : Go unit :=
  match dirs with
  | [] => ret tt
  | d :: rest => Response_Write c (entryLine d) ;;; writeEntries rest c
  end.

(** [listDir]. The Content-Type header it sets is not kept in the world. *)
Definition listDir (d : File) (c : loc) : Go (option error) :=
  match Readdir d with
  | inl err => ret (Some err)
  | inr dirs =>
      Response_Write c ("<pre>" ++ newline) ;;;
      writeEntries dirs c ;;;
      Response_Write c ("</pre>" ++ newline) ;;;
      ret None
  end.

(** [Echo.serveFile]; [autoIndex] is the field of the Echo. *)
Definition serveFile (autoIndex : bool) (fs : FileSystem) (file : string) (c : loc)
  : Go (option error) :=
  match fs file with
  | None => ret (Some (HTTPErr (NewHTTPError StatusNotFound [])))
  | Some f =>
      let fi := Stat f in
      if IsDir fi then
        let d := f in
        let file := filepath_Join [file; indexPage] in
        match fs file with
        | None =>
            if autoIndex then listDir d c
            else ret (Some (HTTPErr (NewHTTPError StatusForbidden [])))
        | Some f =>
            let fi := Stat f in
            ServeContent c (Name fi) f ;;; ret None
        end
      else ServeContent c (Name fi) f ;;; ret None
  end.

(** The handler that [Echo.ServeFile] registers for [file]; [blackfile]
    and [autoIndex] are the fields of the Echo as they are when the
    request is served. *)
Definition serveFileHandler (blackfile : gmap string bool) (autoIndex : bool) (file : string)
  : HandlerFunc :=
  fun c =>
    if blacklisted blackfile (Ext file)
    then ret (Some (HTTPErr (NewHTTPError StatusNotFound [])))
    else
      let '(dir, file) := Split file in
      let fs := Dir dir in
      serveFile autoIndex fs file c.

(** The handler that [Echo.ServeDir] (and [Echo.Static]) registers for
    [dir]; [param] is [c.P(0)], what the route's wildcard captured. *)
Definition serveDirHandler (autoIndex : bool) (dir : string) (param : string) : HandlerFunc :=
  fun c =>
    let fs := Dir dir in
    serveFile autoIndex fs param c.

End Files.

(** ** More of the site *)

(** A net/http handler that does nothing, and a handler that panics. *)
Definition quiet : HTTPHandlerFunc := fun _ _ => ret tt.
Definition crashing : HandlerFunc := fun _ => panic "crash".

(** The site with a parameterised route for a net/http handler. *)
Definition userHeap : @Heap staticRouting :=
  heapOf (Get 1%nat "/users/:id/files/:name" (H_funcHTTP quiet) siteHeap).

(** An Echo without middleware and with three routes: one that panics,
    one that fails and one served by a net/http handler. *)
Definition bare : @Setup staticRouting loc :=
  (e <- New ;;
   Get e "/crash" (H_HandlerFunc crashing) ;;;
   Get e "/fail" (H_funcContext (failing (PlainErr "boom"))) ;;;
   Get e "/plain" (H_funcHTTP quiet) ;;;
   sret e)%setup.

Definition bareHeap : @Heap staticRouting := heapOf (bare emptyHeap).

(** A disk with one directory [www] that holds a directory [docs] without
    an index page and a file [readme.txt]; serving a file writes its name. *)
Definition docsDir : File :=
  mkFile (mkFileInfo "docs" true) (inr [mkFileInfo "a.txt" false; mkFileInfo "img" true]).
Definition readme : File :=
  mkFile (mkFileInfo "readme.txt" false) (inl (PlainErr "not a directory")).

Definition smallDisk : FileServing := {|
  Dir := fun dir name =>
    if String.eqb dir "www" then
      if String.eqb name "docs" then Some docsDir
      else if String.eqb name "readme.txt" then Some readme
      else None
    else None;
  ServeContent := fun c name _ => Response_Write c name;
  filepath_Join := Join
|}.

(** * Properties *)

Example Join_prefix : Join [EmptyString; "/"; "users"] = "/users" /\ Join ["/"; "/api"; "v1/"] = "/api/v1".
Proof. split; reflexivity. Qed.

(** ** Trimming *)

Lemma inCutset_slash (a : ascii) :
  inCutset a "/" = Ascii.eqb a "/"%char.
Proof. unfold inCutset; simpl. now rewrite orb_false_r. Qed.

Lemma TrimRight_slash_spec (s : string) :
  lastByte (TrimRight s "/") <> Some "/"%char /\
  exists n, s = TrimRight s "/" ++ slashes n.
Proof.
  induction s as [|a t [IHlast [n IHn]]]; simpl.
  - split; [discriminate | now exists 0%nat].
  - destruct (TrimRight t "/") as [|b t'] eqn:Ht.
    + rewrite inCutset_slash.
      destruct (Ascii.eqb a "/"%char) eqn:Ha.
      * apply Ascii.eqb_eq in Ha; subst a. split; [discriminate|].
        exists (S n). simpl. now rewrite IHn at 1.
      * apply Ascii.eqb_neq in Ha. split; [simpl; congruence|].
        exists n. simpl. now rewrite IHn at 1.
    + split; [exact IHlast|].
      exists n. now rewrite IHn at 1.
Qed.

Lemma normalizePath_root : normalizePath "/" = "/".
Proof. reflexivity. Qed.

Lemma normalizePath_other (p : string) :
  p <> "/" -> normalizePath p = TrimRight p "/".
Proof.
  intros Hp. unfold normalizePath.
  destruct (String.eqb p "/") eqn:E; [apply String.eqb_eq in E; contradiction | reflexivity].
Qed.

Example TrimRight_examples :
  TrimRight "/users/" "/" = "/users" /\
  TrimRight "/a//" "/" = "/a" /\
  TrimRight "//" "/" = EmptyString /\
  TrimRight "/a/b" "/" = "/a/b".
Proof. repeat split. Qed.

(** ** The dispatch pipeline *)

Section Dispatching.
Context {K : Collaborators}.

Lemma tbind_assoc {A B C} (m : Traced A) (k1 : A -> Traced B) (k2 : B -> Traced C) w :
  tbind (tbind m k1) k2 w = tbind m (fun a => tbind (k1 a) k2) w.
Proof.
  unfold tbind. destruct (m w) as [j [a w'|v w']]; [|reflexivity].
  destruct (k1 a w') as [j1 [b w1|v w1]]; [|reflexivity].
  destruct (k2 b w1) as [j2 o2]. now rewrite app_assoc.
Qed.

Lemma tbind_ext {A B} (m : Traced A) (k k' : A -> Traced B) w :
  (forall a w', k a w' = k' a w') -> tbind m k w = tbind m k' w.
Proof.
  intros H. unfold tbind. destruct (m w) as [j [a w'|v w']]; [|reflexivity].
  now rewrite H.
Qed.

Lemma tbind_tret_l {A B} (a : A) (k : A -> Traced B) w :
  tbind (tret a) k w = k a w.
Proof. unfold tbind, tret. now destruct (k a w). Qed.

Lemma ServeHTTP_phases hp e w r w0 :
  ServeHTTP hp e w r w0 =
  tbind (lookup hp e w r)
        (fun x => let '(c, h, e') := x in
                  tbind (lift (compose hp e' h)) (fun h' => execute hp e' c h')) w0.
Proof.
  unfold ServeHTTP, lookup.
  rewrite tbind_assoc. apply tbind_ext; intros E w1.
  rewrite tbind_assoc. apply tbind_ext; intros _ w2.
  rewrite tbind_assoc. apply tbind_ext; intros R w3.
  rewrite tbind_assoc. apply tbind_ext; intros _ w4.
  rewrite tbind_assoc. apply tbind_ext; intros c w5.
  rewrite tbind_assoc. apply tbind_ext; intros Rt w6.
  rewrite tbind_assoc. apply tbind_ext; intros R' w7.
  rewrite tbind_assoc. apply tbind_ext; intros [h e'] w8.
  rewrite tbind_assoc. apply tbind_ext; intros _ w9.
  rewrite tbind_tret_l.
  unfold compose, execute, lift, tbind at 1 3, bind, deref.
  destruct (echos hp !! e') as [E'|]; simpl; [|reflexivity].
  unfold tbind, ret.
  destruct (chain hp (middleware E') (len (middleware E')) h w9) as [h' wa|v wa]; simpl; [|reflexivity].
  destruct (h' c wa) as [err wb|v wb]; simpl; [|reflexivity].
  destruct err as [err|]; simpl.
  - destruct (callErrorHandler hp (httpErrorHandler E') err c wb); reflexivity.
  - reflexivity.
Qed.

Lemma tbind_step {A B} (m : Traced A) (k : A -> Traced B) w j1 a w1 :
  m w = (j1, Returns a w1) ->
  tbind m k w = ((j1 ++ fst (k a w1))%list, snd (k a w1)).
Proof. intros H. unfold tbind. rewrite H. now destruct (k a w1). Qed.

Lemma tbind_stop {A B} (m : Traced A) (k : A -> Traced B) w j1 v w1 :
  m w = (j1, Panics v w1) -> tbind m k w = (j1, Panics v w1).
Proof. intros H. unfold tbind. now rewrite H. Qed.

Lemma loadCtx_Some c C w : ctxs w !! c = Some C -> loadCtx c w = Returns C w.
Proof. intros H. unfold loadCtx, bind, get, deref. now rewrite H. Qed.

Lemma loadCtx_None c w :
  ctxs w !! c = None ->
  loadCtx c w = Panics "invalid memory address or nil pointer dereference" w.
Proof. intros H. unfold loadCtx, bind, get, deref. now rewrite H. Qed.

Lemma storeCtx_Some c C C' w :
  ctxs w !! c = Some C -> storeCtx c C' w = Returns tt (setCtxs (insert c C') w).
Proof. intros H. unfold storeCtx, bind. now rewrite (loadCtx_Some _ _ _ H). Qed.

Lemma loadReq_Some r R w : reqs w !! r = Some R -> loadReq r w = Returns R w.
Proof. intros H. unfold loadReq, bind, get, deref. now rewrite H. Qed.

Lemma storeReq_Some r R R' w :
  reqs w !! r = Some R -> storeReq r R' w = Returns tt (setReqs (insert r R') w).
Proof. intros H. unfold storeReq, bind. now rewrite (loadReq_Some _ _ _ H). Qed.

Lemma pool_Get_reqs hp e w c w' :
  pool_Get hp e w = Returns c w' -> reqs w' = reqs w.
Proof.
  unfold pool_Get, bind, deref, get, ret, panic, modify.
  destruct (echos hp !! e) as [E|]; [|discriminate].
  destruct (default [] (pools w !! e)) as [|c0 rest].
  - destruct (Nat.eqb (pool E) nil); [discriminate|].
    intros H; injection H as _ <-. reflexivity.
  - intros H; injection H as _ <-. reflexivity.
Qed.

Lemma pathStatement_reqs r R w1 :
  reqs w1 !! r = Some R ->
  reqs (pathStatement r R w1) !! r = Some (mkRequest (reqMethod R) (normalizePath (URLPath R))).
Proof.
  intros H. unfold pathStatement, normalizePath.
  destruct (String.eqb (URLPath R) "/") eqn:Hp; simpl.
  - rewrite H. now destruct R.
  - apply lookup_insert_eq.
Qed.

Lemma lookup_run hp e w r w0 E w1 R c w3 Rt :
  echos hp !! e = Some E ->
  runHook E w r w0 = Returns tt w1 ->
  reqs w1 !! r = Some R ->
  pool_Get hp e (pathStatement r R w1) = Returns c w3 ->
  routers hp !! router E = Some Rt ->
  let p := normalizePath (URLPath R) in
  let pre := (hookCalls E w r ++ [CallPoolGet e; CallFind (reqMethod R) p c])%list in
  lookup hp e w r w0 =
  match Router_Find (tree Rt) (reqMethod R) p c w3 with
  | Returns (h, e') w4 =>
      match ctxs w4 !! c with
      | Some C => ((pre ++ [CallReset c r w e'])%list,
                   Returns (c, h, e') (setCtxs (insert c (Context_reset r w e' C)) w4))
      | None => ((pre ++ [CallReset c r w e'])%list,
                 Panics "invalid memory address or nil pointer dereference" w4)
      end
  | Panics v w4 => (pre, Panics v w4)
  end.
Proof.
  intros HE Hhook HR Hget HRt p pre.
  unfold lookup.
  rewrite (tbind_step _ _ _ [] E w0) by (unfold lift, deref; now rewrite HE).
  rewrite (tbind_step _ _ _ (hookCalls E w r) tt w1).
  2:{ unfold runHook, hookCalls in *. destruct (hook E); unfold calling, tret.
      - now rewrite Hhook.
      - unfold ret in Hhook. congruence. }
  rewrite (tbind_step _ _ _ [] R w1) by (unfold lift, loadReq, bind, get, deref; now rewrite HR).
  rewrite (tbind_step _ _ _ [] tt (pathStatement r R w1)).
  2:{ unfold pathStatement. destruct (negb (URLPath R =? "/")); [|reflexivity].
      unfold lift, storeReq, loadReq, bind, get, deref, modify. now rewrite HR. }
  rewrite (tbind_step _ _ _ [CallPoolGet e] c w3) by (unfold calling; now rewrite Hget).
  rewrite (tbind_step _ _ _ [] Rt w3) by (unfold lift, deref; now rewrite HRt).
  pose proof (pathStatement_reqs r R w1 HR) as HR'.
  rewrite <- (pool_Get_reqs _ _ _ _ _ Hget) in HR'.
  rewrite (tbind_step _ _ _ [] _ w3) by (unfold lift, loadReq, bind, get, deref; now rewrite HR').
  simpl reqMethod; simpl URLPath. fold p.
  destruct (Router_Find (tree Rt) (reqMethod R) p c w3) as [[h e'] w4|v w4] eqn:HF.
  - rewrite (tbind_step _ _ _ [CallFind (reqMethod R) p c] (h, e') w4)
      by (unfold calling; now rewrite HF).
    destruct (ctxs w4 !! c) as [C|] eqn:HC.
    + rewrite (tbind_step _ _ _ [CallReset c r w e'] tt
                 (setCtxs (insert c (Context_reset r w e' C)) w4)).
      2:{ unfold calling, bind. rewrite (loadCtx_Some _ _ _ HC).
          now rewrite (storeCtx_Some _ _ _ _ HC). }
      unfold tret; simpl. subst pre. now rewrite ?app_nil_r, <- ?app_assoc.
    + rewrite (tbind_stop _ _ _ [CallReset c r w e']
                 "invalid memory address or nil pointer dereference" w4).
      2:{ unfold calling, bind. now rewrite (loadCtx_None _ _ HC). }
      simpl. subst pre. now rewrite ?app_nil_r, <- ?app_assoc.
  - rewrite (tbind_stop _ _ _ [CallFind (reqMethod R) p c] v w4)
      by (unfold calling; now rewrite HF).
    simpl. subst pre. now rewrite ?app_nil_r.
Qed.


Lemma execute_run hp e' E' c (h : HandlerFunc) w1 :
  echos hp !! e' = Some E' ->
  execute hp e' c h w1 =
  match h c w1 with
  | Returns (Some err) w2 =>
      match callErrorHandler hp (httpErrorHandler E') err c w2 with
      | Returns _ w3 =>
          ([CallChain c; CallErrorHandler e' err c; CallPoolPut e' c], Returns tt (put e' c w3))
      | Panics v w3 => ([CallChain c; CallErrorHandler e' err c], Panics v w3)
      end
  | Returns None w2 => ([CallChain c; CallPoolPut e' c], Returns tt (put e' c w2))
  | Panics v w2 => ([CallChain c], Panics v w2)
  end.
Proof.
  intros HE. unfold execute.
  rewrite (tbind_step _ _ _ [] E' w1) by (unfold lift, deref; now rewrite HE).
  destruct (h c w1) as [[err|] w2|v w2] eqn:Hh.
  - rewrite (tbind_step _ _ _ [CallChain c] (Some err) w2) by (unfold calling; now rewrite Hh).
    destruct (callErrorHandler hp (httpErrorHandler E') err c w2) as [[] w3|v w3] eqn:Heh.
    + rewrite (tbind_step _ _ _ [CallErrorHandler e' err c] tt w3)
        by (unfold calling; now rewrite Heh).
      reflexivity.
    + rewrite (tbind_stop _ _ _ [CallErrorHandler e' err c] v w3)
        by (unfold calling; now rewrite Heh).
      reflexivity.
  - rewrite (tbind_step _ _ _ [CallChain c] None w2) by (unfold calling; now rewrite Hh).
    reflexivity.
  - rewrite (tbind_stop _ _ _ [CallChain c] v w2) by (unfold calling; now rewrite Hh).
    reflexivity.
Qed.

Lemma composed_app fs gs h : composed (fs ++ gs) h = composed fs (composed gs h).
Proof. unfold composed. apply fold_right_app. Qed.

Lemma holds_index hp s fs i f :
  holds hp s fs -> fs !! i = Some f -> forall w, index hp s i w = Returns (Some f) w.
Proof.
  intros [Hel Hlen] Hi w. unfold index.
  pose proof (lookup_lt_Some _ _ _ Hi) as Hlt. rewrite Hlen in Hlt.
  destruct (Nat.ltb_spec i (len s)) as [_|]; [|lia].
  unfold elems in Hel.
  assert (Hm : map Some fs !! i = Some (Some f)) by (rewrite list_lookup_fmap, Hi; reflexivity).
  rewrite <- Hel in Hm. rewrite lookup_take_lt in Hm by lia.
  destruct (arrays hp !! array s) as [a|]; simpl in Hm; [|now rewrite lookup_nil in Hm].
  unfold bind, deref, ret. now rewrite Hm.
Qed.

Lemma chain_composed hp s fs :
  holds hp s fs ->
  forall n h w, (n <= len s)%nat ->
  chain hp s n h w = Returns (composed (take n fs) h) w.
Proof.
  intros H n. induction n as [|i IH]; intros h w Hn; simpl.
  - reflexivity.
  - destruct H as [Hel Hlen].
    destruct (lookup_lt_is_Some_2 fs i) as [f Hf]; [lia|].
    unfold bind. rewrite (holds_index hp s fs i f (conj Hel Hlen) Hf).
    rewrite IH by lia.
    rewrite (take_S_r _ _ _ Hf), composed_app. reflexivity.
Qed.

Lemma compose_composed hp e' E' fs h w :
  echos hp !! e' = Some E' -> holds hp (middleware E') fs ->
  compose hp e' h w = Returns (composed fs h) w.
Proof.
  intros HE H. unfold compose, bind, deref. rewrite HE. simpl.
  rewrite (chain_composed hp _ fs H) by lia.
  destruct H as [_ Hlen]. rewrite <- Hlen, firstn_all. reflexivity.
Qed.

Lemma ServeHTTP_run hp e w r w0 j0 c h e' w1 E' fs :
  lookup hp e w r w0 = (j0, Returns (c, h, e') w1) ->
  echos hp !! e' = Some E' -> holds hp (middleware E') fs ->
  ServeHTTP hp e w r w0 =
  ((j0 ++ fst (execute hp e' c (composed fs h) w1))%list,
   snd (execute hp e' c (composed fs h) w1)).
Proof.
  intros Hl HE H. rewrite ServeHTTP_phases.
  rewrite (tbind_step _ _ _ _ _ _ Hl).
  rewrite (tbind_step _ _ _ [] (composed fs h) w1)
    by (unfold lift; now rewrite (compose_composed hp e' E' fs h w1 HE H)).
  reflexivity.
Qed.

Lemma tbind_journal_prefix {A B} (m : Traced A) (k : A -> Traced B) w :
  exists j, fst (tbind m k w) = (fst (m w) ++ j)%list.
Proof.
  unfold tbind. destruct (m w) as [j0 [a w'|v w']]; simpl.
  - destruct (k a w') as [j1 o]. now exists j1.
  - exists []. now rewrite app_nil_r.
Qed.

Lemma errorHandlerCalls_app j1 j2 :
  errorHandlerCalls (j1 ++ j2) = (errorHandlerCalls j1 + errorHandlerCalls j2)%nat.
Proof.
  induction j1 as [|ev j1 IH]; simpl; [reflexivity|].
  destruct ev; simpl; rewrite IH; reflexivity.
Qed.

Lemma tbind_quiet {A B} (m : Traced A) (k : A -> Traced B) w :
  (forall w, errorHandlerCalls (fst (m w)) = 0%nat) ->
  (forall a w, errorHandlerCalls (fst (k a w)) = 0%nat) ->
  errorHandlerCalls (fst (tbind m k w)) = 0%nat.
Proof.
  intros Hm Hk. unfold tbind. specialize (Hm w).
  destruct (m w) as [j0 [a w'|v w']]; simpl in *; [|exact Hm].
  specialize (Hk a w'). destruct (k a w') as [j1 o]; simpl in *.
  rewrite errorHandlerCalls_app. lia.
Qed.

Lemma lookup_quiet hp e w r w0 : errorHandlerCalls (fst (lookup hp e w r w0)) = 0%nat.
Proof.
  unfold lookup.
  repeat first
    [ reflexivity
    | apply tbind_quiet; [intros ? | intros ? ?]
    | match goal with
      | |- context [match ?x with _ => _ end] => destruct x
      | |- context [if ?x then _ else _] => destruct x
      end ].
Qed.

(** C5. [ServeHTTP] normalises the path before the lookup. Once the hook
    has run and left the request [R] behind [r], the path handed to
    [Router.Find] is [normalizePath (URLPath R)]: the root path stays as it
    is, every other path is the old one with its trailing slashes trimmed
    away, so it no longer ends in a slash. The request itself holds the
    normalised path when [Find] runs, and the first [Find] of the journal
    is the call with that path. *)
Theorem ServeHTTP_finds_normalized_path hp e w r w0 E w1 R c w3 Rt :
  echos hp !! e = Some E ->
  runHook E w r w0 = Returns tt w1 ->
  reqs w1 !! r = Some R ->
  pool_Get hp e (pathStatement r R w1) = Returns c w3 ->
  routers hp !! router E = Some Rt ->
  let p := normalizePath (URLPath R) in
  let J := fst (ServeHTTP hp e w r w0) in
  (URLPath R = "/" -> p = "/") /\
  (URLPath R <> "/" ->
   p = TrimRight (URLPath R) "/" /\ lastByte p <> Some "/"%char /\
   exists n, URLPath R = p ++ slashes n) /\
  reqs w3 !! r = Some (mkRequest (reqMethod R) p) /\
  (exists j, J = (hookCalls E w r ++
                  [CallPoolGet e; CallFind (reqMethod R) p c] ++ j)%list) /\
  position isFind J = Some (S (length (hookCalls E w r))).
Proof.
  intros HE Hhook HR Hget HRt p J.
  assert (HJ : exists j, J = (hookCalls E w r ++
                  [CallPoolGet e; CallFind (reqMethod R) p c] ++ j)%list).
  { subst J. rewrite ServeHTTP_phases.
    destruct (tbind_journal_prefix (lookup hp e w r)
      (fun x => let '(c, h, e') := x in
                tbind (lift (compose hp e' h)) (fun h' => execute hp e' c h')) w0) as [j Hj].
    rewrite Hj. rewrite (lookup_run hp e w r w0 E w1 R c w3 Rt HE Hhook HR Hget HRt).
    fold p.
    destruct (Router_Find (tree Rt) (reqMethod R) p c w3) as [[h e'] w4|v w4].
    - destruct (ctxs w4 !! c); simpl; rewrite <- !app_assoc; simpl; eauto.
    - simpl. rewrite <- !app_assoc; simpl; eauto. }
  repeat split.
  - intros Hp. subst p. now rewrite Hp.
  - subst p. now apply normalizePath_other.
  - subst p. rewrite (normalizePath_other _ H). apply TrimRight_slash_spec.
  - subst p. rewrite (normalizePath_other _ H). apply TrimRight_slash_spec.
  - rewrite (pool_Get_reqs _ _ _ _ _ Hget). now apply pathStatement_reqs.
  - exact HJ.
  - destruct HJ as [j ->]. unfold hookCalls. destruct (hook E); reflexivity.
Qed.

(** C6, as the code has it. [ServeHTTP] takes the context from the pool,
    calls [Router.Find] on it while it is as the pool handed it out, and
    only then resets it, with the live request and writer and with the
    Echo that [Find] returned: in the journal the pool comes before
    [Find], [Find] before [reset], and never [reset] before [Find]. *)
Theorem ServeHTTP_finds_then_resets hp e w r w0 E w1 R c w3 Rt h e' w4 C :
  echos hp !! e = Some E ->
  runHook E w r w0 = Returns tt w1 ->
  reqs w1 !! r = Some R ->
  pool_Get hp e (pathStatement r R w1) = Returns c w3 ->
  routers hp !! router E = Some Rt ->
  Router_Find (tree Rt) (reqMethod R) (normalizePath (URLPath R)) c w3 = Returns (h, e') w4 ->
  ctxs w4 !! c = Some C ->
  let J := fst (ServeHTTP hp e w r w0) in
  lookup hp e w r w0 =
    ((hookCalls E w r ++
      [CallPoolGet e; CallFind (reqMethod R) (normalizePath (URLPath R)) c;
       CallReset c r w e'])%list,
     Returns (c, h, e') (setCtxs (insert c (Context_reset r w e' C)) w4)) /\
  (exists j, J = (hookCalls E w r ++
                  [CallPoolGet e; CallFind (reqMethod R) (normalizePath (URLPath R)) c;
                   CallReset c r w e'] ++ j)%list) /\
  before (position isPoolGet J) (position isFind J) /\
  before (position isFind J) (position isReset J) /\
  ~ before (position isReset J) (position isFind J).
Proof.
  intros HE Hhook HR Hget HRt HF HC J.
  pose proof (lookup_run hp e w r w0 E w1 R c w3 Rt HE Hhook HR Hget HRt) as Hl.
  simpl in Hl. rewrite HF, HC in Hl. rewrite <- app_assoc in Hl. simpl in Hl.
  assert (HJ : exists j, J = (hookCalls E w r ++
                  [CallPoolGet e; CallFind (reqMethod R) (normalizePath (URLPath R)) c;
                   CallReset c r w e'] ++ j)%list).
  { subst J. rewrite ServeHTTP_phases.
    destruct (tbind_journal_prefix (lookup hp e w r)
      (fun x => let '(c, h, e') := x in
                tbind (lift (compose hp e' h)) (fun h' => execute hp e' c h')) w0) as [j Hj].
    rewrite Hj, Hl. simpl. rewrite <- app_assoc. simpl. eauto. }
  split; [exact Hl|]. split; [exact HJ|].
  destruct HJ as [j ->]. unfold hookCalls.
  destruct (hook E); simpl; repeat split; lia.
Qed.

(** C2. When the composed chain returns an error, [ServeHTTP] calls the
    error handler registered on the resolved Echo exactly once, with that
    error and the context of the request, in the world the chain left;
    when the chain returns nil the error handler is not called at all. *)
Theorem error_handler_called_once hp e w r w0 j0 c h e' w1 E' fs res w2 :
  lookup hp e w r w0 = (j0, Returns (c, h, e') w1) ->
  echos hp !! e' = Some E' ->
  holds hp (middleware E') fs ->
  composed fs h c w1 = Returns res w2 ->
  let J := fst (ServeHTTP hp e w r w0) in
  let O := snd (ServeHTTP hp e w r w0) in
  match res with
  | Some err =>
      errorHandlerCalls J = 1%nat /\
      In (CallErrorHandler e' err c) J /\
      match callErrorHandler hp (httpErrorHandler E') err c w2 with
      | Returns _ w3 => O = Returns tt (put e' c w3)
      | Panics v w3 => O = Panics v w3
      end
  | None =>
      errorHandlerCalls J = 0%nat /\ O = Returns tt (put e' c w2)
  end.
Proof.
  intros Hl HE H Hh J O. subst J O.
  rewrite (ServeHTTP_run hp e w r w0 j0 c h e' w1 E' fs Hl HE H).
  rewrite (execute_run hp e' E' c _ w1 HE), Hh.
  pose proof (lookup_quiet hp e w r w0) as Hq. rewrite Hl in Hq. simpl in Hq.
  destruct res as [err|]; simpl.
  - destruct (callErrorHandler hp (httpErrorHandler E') err c w2) as [[] w3|v w3]; simpl;
      rewrite errorHandlerCalls_app, Hq; simpl; repeat split; try reflexivity;
      apply in_or_app; right; simpl; auto.
  - rewrite errorHandlerCalls_app, Hq. simpl. split; reflexivity.
Qed.

(** C7. After the chain has run, [ServeHTTP] puts the context back and
    returns: the last call of the journal is [pool.Put] with the context
    of the request, and the context heads the free list, both when the
    chain returned nil and when it returned an error that the error
    handler took. The pool is that of the Echo [Router.Find] returned. *)
Theorem context_released_after_chain hp e w r w0 j0 c h e' w1 E' fs res w2 w3 :
  lookup hp e w r w0 = (j0, Returns (c, h, e') w1) ->
  echos hp !! e' = Some E' ->
  holds hp (middleware E') fs ->
  composed fs h c w1 = Returns res w2 ->
  match res with
  | Some err => callErrorHandler hp (httpErrorHandler E') err c w2 = Returns tt w3
  | None => w3 = w2
  end ->
  let J := fst (ServeHTTP hp e w r w0) in
  snd (ServeHTTP hp e w r w0) = Returns tt (put e' c w3) /\
  last J = Some (CallPoolPut e' c) /\
  pools (put e' c w3) !! e' = Some (c :: default [] (pools w3 !! e')) /\
  ctxs (put e' c w3) = ctxs w3.
Proof.
  intros Hl HE H Hh Heh J. subst J.
  rewrite (ServeHTTP_run hp e w r w0 j0 c h e' w1 E' fs Hl HE H).
  rewrite (execute_run hp e' E' c _ w1 HE), Hh.
  assert (Hp : pools (put e' c w3) !! e' = Some (c :: default [] (pools w3 !! e')))
    by (unfold put; simpl; apply lookup_insert_eq).
  destruct res as [err|].
  - rewrite Heh. simpl. repeat split; [|exact Hp].
    change (j0 ++ [CallChain c; CallErrorHandler e' err c; CallPoolPut e' c])%list
      with (j0 ++ [CallChain c; CallErrorHandler e' err c] ++ [CallPoolPut e' c])%list.
    rewrite app_assoc. apply last_snoc.
  - subst w3. simpl. repeat split; [|exact Hp].
    change (j0 ++ [CallChain c; CallPoolPut e' c])%list
      with (j0 ++ [CallChain c] ++ [CallPoolPut e' c])%list.
    rewrite app_assoc. apply last_snoc.
Qed.

End Dispatching.

(** ** Registration *)

Section Registering.
Context {K : Collaborators}.

Lemma freshLoc_fresh (used : gset loc) : (freshLoc used ∉ used) /\ freshLoc used <> nil.
Proof.
  unfold freshLoc.
  pose proof (is_fresh ({[nil]} ∪ used)) as H.
  split.
  - intros Hin. apply H. apply elem_of_union. now right.
  - intros Heq. apply H. rewrite Heq. apply elem_of_union. left.
    now apply elem_of_singleton.
Qed.

Lemma append_spec hp s fs f :
  wfSlice hp s -> holds hp s fs ->
  exists s' hp',
    append s f hp = Built s' hp' /\
    wfSlice hp' s' /\ holds hp' s' (fs ++ [f]) /\
    echos hp' = echos hp /\ routers hp' = routers hp /\
    (forall a, apart hp a s -> apart hp' a s' /\ arrays hp' !! a = arrays hp !! a).
Proof.
  intros [Hle Hwf] [Hel Hlen]. unfold append, sbind, sget.
  destruct (Nat.ltb_spec (len s) (cap s)) as [Hlt|Hge].
  - destruct Hwf as [[Hc _]|[a [Ha Hla]]]; [lia|].
    rewrite Ha. simpl. unfold smodify, sret.
    eexists _, _. split; [reflexivity|].
    unfold elems in Hel. rewrite Ha in Hel. simpl in Hel.
    repeat split; simpl.
    + lia.
    + right. exists (<[len s := Some f]> a). rewrite lookup_insert_eq.
      split; [reflexivity|]. now rewrite length_insert.
    + unfold elems. simpl. rewrite lookup_insert_eq. simpl.
      rewrite (take_S_r _ _ (Some f)) by (apply list_lookup_insert_eq; lia).
      rewrite take_insert_ge by lia. rewrite Hel, map_app. reflexivity.
    + rewrite length_app. simpl. lia.
    + destruct H as [[Hd|Hn] Hne]; [left|right; exact Hn].
      rewrite dom_insert_L. apply elem_of_union. now right.
    + apply H.
    + destruct H as [_ Hne]. now rewrite lookup_insert_ne by congruence.
  - unfold smodify, sret. simpl.
    destruct (freshLoc_fresh (dom (arrays hp))) as [Hfresh Hnil].
    set (p := freshLoc (dom (arrays hp))) in *.
    assert (Hlel : length (elems hp s) = len s)
      by (rewrite Hel, length_map; exact Hlen).
    eexists _, _. split; [reflexivity|].
    repeat split; simpl.
    + lia.
    + right. eexists. rewrite lookup_insert_eq. split; [reflexivity|].
      rewrite length_app. simpl. rewrite length_replicate, Hlel. lia.
    + unfold elems at 1. simpl. rewrite lookup_insert_eq. simpl.
      rewrite take_app_ge by lia. rewrite Hlel.
      replace (S (len s) - len s)%nat with 1%nat by lia. simpl. rewrite take_0.
      rewrite Hel, map_app. reflexivity.
    + rewrite length_app. simpl. lia.
    + destruct H as [[Hd|Hn] Hne]; [left|right; exact Hn].
      rewrite dom_insert_L. apply elem_of_union. now right.
    + destruct H as [[Hd|Hn] Hne]; [intros ->; contradiction | congruence].
    + destruct H as [[Hd|Hn] Hne]; rewrite lookup_insert_ne; try reflexivity.
      * intros ->. contradiction.
      * congruence.
Qed.

Lemma loadEcho_Some e E hp : echos hp !! e = Some E -> loadEcho e hp = Built E hp.
Proof. intros H. unfold loadEcho, sbind, sget, sderef. now rewrite H. Qed.

Lemma storeEcho_Some e E E' hp :
  echos hp !! e = Some E -> storeEcho e E' hp = Built tt (setEchos (insert e E') hp).
Proof. intros H. unfold storeEcho, sbind. now rewrite (loadEcho_Some _ _ _ H). Qed.

Lemma setMiddleware_same E : setMiddleware (middleware E) E = E.
Proof. now destruct E. Qed.

Lemma holds_frame hp hp' s fs :
  arrays hp' !! array s = arrays hp !! array s -> holds hp s fs -> holds hp' s fs.
Proof. unfold holds, elems. now intros ->. Qed.

Lemma Use_spec e ms fs :
  wrapped ms fs ->
  forall hp E fs0,
  echos hp !! e = Some E ->
  wfSlice hp (middleware E) -> holds hp (middleware E) fs0 ->
  exists s' hp',
    Use e ms hp = Built tt hp' /\
    echos hp' !! e = Some (setMiddleware s' E) /\
    (forall e2, e2 <> e -> echos hp' !! e2 = echos hp !! e2) /\
    wfSlice hp' s' /\ holds hp' s' (fs0 ++ fs) /\
    routers hp' = routers hp /\
    (forall a, apart hp a (middleware E) ->
               apart hp' a s' /\ arrays hp' !! a = arrays hp !! a).
Proof.
  induction 1 as [|m f ms fs Hm Hms IH]; intros hp E fs0 HE Hwf Hh.
  - exists (middleware E), hp. simpl. rewrite setMiddleware_same, app_nil_r.
    split; [reflexivity|]. split; [exact HE|]. split; [auto|].
    split; [exact Hwf|]. split; [exact Hh|]. split; [reflexivity|].
    intros a Ha. split; [exact Ha | reflexivity].
  - simpl. unfold sbind at 1. rewrite (loadEcho_Some _ _ _ HE).
    unfold sbind at 1. rewrite Hm. simpl.
    destruct (append_spec hp (middleware E) fs0 f Hwf Hh)
      as (s1 & hp1 & Happ & Hwf1 & Hh1 & He1 & Hr1 & Hfr1).
    unfold sbind at 1. rewrite Happ.
    assert (HE1 : echos hp1 !! e = Some E) by (now rewrite He1).
    unfold sbind at 1. rewrite (loadEcho_Some _ _ _ HE1).
    unfold sbind at 1. rewrite (storeEcho_Some _ _ _ _ HE1).
    set (hp2 := setEchos (insert e (setMiddleware s1 E)) hp1).
    assert (HE2 : echos hp2 !! e = Some (setMiddleware s1 E))
      by (subst hp2; simpl; apply lookup_insert_eq).
    destruct (IH hp2 (setMiddleware s1 E) (fs0 ++ [f])%list HE2)
      as (s' & hp' & HUse & HE' & Hother & Hwf' & Hh' & Hr' & Hfr').
    { simpl. exact Hwf1. }
    { simpl. exact Hh1. }
    exists s', hp'. split; [exact HUse|].
    split; [rewrite HE'; now destruct E|].
    split.
    { intros e2 Hne. rewrite (Hother e2 Hne). subst hp2; simpl.
      rewrite lookup_insert_ne by congruence. now rewrite He1. }
    split; [exact Hwf'|].
    split; [now rewrite <- app_assoc in Hh'|].
    split; [rewrite Hr'; subst hp2; simpl; exact Hr1|].
    intros a Ha. destruct (Hfr1 a Ha) as [Ha1 Heq1].
    destruct (Hfr' a) as [Ha' Heq']; [exact Ha1|].
    split; [exact Ha'|]. rewrite Heq'. subst hp2; simpl. exact Heq1.
Qed.

Lemma sbind_assoc {A B C} (m : Setup A) (k1 : A -> Setup B) (k2 : B -> Setup C) hp :
  sbind (sbind m k1) k2 hp = sbind m (fun a => sbind (k1 a) k2) hp.
Proof. unfold sbind. now destruct (m hp). Qed.

Lemma sbind_ext {A B} (m : Setup A) (k k' : A -> Setup B) hp :
  (forall a hp', k a hp' = k' a hp') -> sbind m k hp = sbind m k' hp.
Proof. intros H. unfold sbind. destruct (m hp); [apply H | reflexivity]. Qed.

Lemma Use_app e ms1 ms2 hp :
  Use e (ms1 ++ ms2) hp = sbind (Use e ms1) (fun _ => Use e ms2) hp.
Proof.
  revert hp. induction ms1 as [|m ms1 IH]; intros hp; simpl; [reflexivity|].
  symmetry.
  rewrite sbind_assoc. apply sbind_ext; intros E hp1.
  rewrite sbind_assoc. apply sbind_ext; intros f hp2.
  rewrite sbind_assoc. apply sbind_ext; intros s hp3.
  rewrite sbind_assoc. apply sbind_ext; intros E' hp4.
  rewrite sbind_assoc. apply sbind_ext; intros _ hp5.
  symmetry. apply IH.
Qed.

Lemma Use_rejects e m ms hp E :
  echos hp !! e = Some E ->
  acceptedMiddleware m = false ->
  Use e (m :: ms) hp = Aborted "unknown middleware" hp.
Proof.
  intros HE Hm. simpl. unfold sbind at 1. rewrite (loadEcho_Some _ _ _ HE).
  destruct m; try discriminate. reflexivity.
Qed.

Lemma wfSlice_allocated hp s : wfSlice hp s -> array s ∈ dom (arrays hp) \/ array s = nil.
Proof.
  intros [_ [[_ Hn]|[a [Ha _]]]]; [right; exact Hn | left].
  apply elem_of_dom. eauto.
Qed.

Lemma Group_spec e pfx ms fs hp E fs0 :
  wrapped ms fs ->
  echos hp !! e = Some E ->
  wfSlice hp (middleware E) -> holds hp (middleware E) fs0 ->
  exists g hp1 s1,
    Group e pfx ms hp = Built g hp1 /\ g <> e /\
    echos hp1 !! g = Some (setMiddleware s1 (setPrefix (path_Join ["/"; prefix E; pfx]) E)) /\
    echos hp1 !! e = Some E /\
    wfSlice hp1 s1 /\ holds hp1 s1 (fs0 ++ fs) /\
    apart hp1 (array (middleware E)) s1 /\
    arrays hp1 !! array (middleware E) = arrays hp !! array (middleware E).
Proof.
  intros Hms HE Hwf Hh.
  destruct (freshLoc_fresh (dom (echos hp))) as [Hg Hgn].
  destruct (freshLoc_fresh (dom (arrays hp))) as [Hp Hpn].
  set (g := freshLoc (dom (echos hp))) in *.
  set (p := freshLoc (dom (arrays hp))) in *.
  assert (Hge : g <> e).
  { intros ->. apply Hg. apply elem_of_dom. eauto. }
  pose proof (wfSlice_allocated _ _ Hwf) as Hal.
  assert (Hpa : array (middleware E) <> p).
  { destruct Hal as [Hd|Hn]; [intros Heq; rewrite Heq in Hd; contradiction | congruence]. }
  set (n := len (middleware E)).
  set (G1 := setPrefix (path_Join ["/"; prefix E; pfx]) E).
  set (mw := mkSlice p n n).
  (* the heap when [g.Use(m...)] starts *)
  set (arr := if (0 <? n)%nat
              then <[p := (take n (map Some fs0) ++ drop n (replicate n None))%list]>
                     (<[p := replicate n None]> (arrays hp))
              else <[p := replicate n None]> (arrays hp)).
  set (hpG := mkHeap (<[g := setMiddleware mw G1]> (<[g := G1]> (<[g := E]> (echos hp))))
                     arr (routers hp)).
  assert (Hstart : Group e pfx ms hp = sbind (Group_Use g ms) (fun _ => sret g) hpG).
  { unfold Group.
    unfold sbind at 1. rewrite (loadEcho_Some _ _ _ HE).
    unfold sbind at 1, sget. fold g.
    unfold sbind at 1, smodify.
    unfold sbind at 1. erewrite loadEcho_Some by (simpl; apply lookup_insert_eq).
    unfold sbind at 1. erewrite storeEcho_Some by (simpl; apply lookup_insert_eq).
    unfold sbind at 1. erewrite loadEcho_Some by (simpl; apply lookup_insert_eq).
    fold G1. simpl middleware. fold n.
    unfold sbind at 1, make, sbind at 1, sget. simpl arrays. fold p.
    unfold sbind at 1, smodify, sret.
    unfold sbind at 1. erewrite loadEcho_Some by (simpl; apply lookup_insert_eq).
    unfold sbind at 1, copy, sbind at 1, sget. simpl.
    rewrite lookup_insert_eq. simpl. rewrite Nat.min_id. fold n.
    assert (Hel : elems (setArrays (insert p (replicate n None))
                   (setEchos (insert g G1) (setEchos (insert g E) hp))) (middleware E)
                  = map Some fs0).
    { unfold elems. simpl. rewrite lookup_insert_ne by congruence. apply Hh. }
    rewrite Hel.
    subst hpG arr. destruct (0 <? n)%nat; unfold sbind, smodify, sret; simpl;
      (erewrite loadEcho_Some by (simpl; apply lookup_insert_eq));
      (erewrite storeEcho_Some by (simpl; apply lookup_insert_eq));
      reflexivity. }
  assert (Hlen0 : length fs0 = n) by apply Hh.
  assert (Harr : arr !! p = Some (map Some fs0)).
  { subst arr. destruct (Nat.ltb_spec 0 n).
    - rewrite lookup_insert_eq. f_equal.
      rewrite take_ge by (rewrite length_map; lia).
      rewrite drop_ge by (rewrite length_replicate; lia).
      apply app_nil_r.
    - rewrite lookup_insert_eq. f_equal.
      assert (n = 0)%nat as Hn0 by lia. rewrite Hn0 in *.
      destruct fs0; [reflexivity | discriminate]. }
  assert (Harr' : forall a, a <> p -> arr !! a = arrays hp !! a).
  { intros a Ha. subst arr. destruct (0 <? n)%nat;
      rewrite ?lookup_insert_ne by congruence; reflexivity. }
  assert (HGg : echos hpG !! g = Some (setMiddleware mw G1))
    by (subst hpG; simpl; apply lookup_insert_eq).
  destruct (Use_spec g ms fs Hms hpG (setMiddleware mw G1) fs0 HGg)
    as (s1 & hp1 & HUse & HE1 & Hother & Hwf1 & Hh1 & _ & Hfr).
  { simpl. split; [simpl; lia|]. right. exists (map Some fs0). simpl.
    split; [exact Harr | now rewrite length_map]. }
  { simpl. split.
    - unfold elems. simpl. rewrite Harr. simpl.
      apply take_ge. rewrite length_map. lia.
    - simpl. exact Hlen0. }
  exists g, hp1, s1.
  split. { rewrite Hstart. unfold sbind, Group_Use. now rewrite HUse. }
  split; [exact Hge|].
  split. { rewrite HE1. now destruct E. }
  split. { rewrite (Hother e) by congruence. subst hpG; simpl.
           now rewrite !lookup_insert_ne by congruence. }
  split; [exact Hwf1|]. split; [exact Hh1|].
  destruct (Hfr (array (middleware E))) as [Hap Heq].
  { split.
    - destruct Hal as [Hd|Hn]; [left|right; exact Hn].
      apply elem_of_dom. subst hpG; simpl. rewrite Harr' by exact Hpa.
      now apply elem_of_dom.
    - simpl. exact Hpa. }
  split; [exact Hap|]. rewrite Heq. subst hpG; simpl. now apply Harr'.
Qed.
Lemma middlewareOf_holds hp e E fs :
  echos hp !! e = Some E -> holds hp (middleware E) fs ->
  middlewareOf hp e = Some (map Some fs).
Proof. intros HE [H _]. unfold middlewareOf. now rewrite HE, H. Qed.

(** C10. [Group] gives the group a copy of the middleware of its parent
    in a backing array of its own and leaves the parent as it was: after
    [Group], and after any later [Use] on the group, the Echo struct of
    the parent (prefix and slice header included) and the middleware read
    through it are unchanged, while the group holds the middleware of the
    parent followed by its own. *)
Theorem Group_leaves_parent_alone e pfx ms fs later fsLater hp E fs0 :
  wrapped ms fs -> wrapped later fsLater ->
  echos hp !! e = Some E ->
  wfSlice hp (middleware E) -> holds hp (middleware E) fs0 ->
  exists g hp1 hp2 G1 G2,
    Group e pfx ms hp = Built g hp1 /\
    Group_Use g later hp1 = Built tt hp2 /\
    g <> e /\
    echos hp1 !! e = Some E /\ middlewareOf hp1 e = middlewareOf hp e /\
    echos hp2 !! e = Some E /\ middlewareOf hp2 e = middlewareOf hp e /\
    echos hp1 !! g = Some G1 /\ echos hp2 !! g = Some G2 /\
    prefix G1 = path_Join ["/"; prefix E; pfx] /\ prefix G2 = prefix G1 /\
    array (middleware G1) <> array (middleware E) /\
    array (middleware G2) <> array (middleware E) /\
    middlewareOf hp1 g = Some (map Some (fs0 ++ fs)) /\
    middlewareOf hp2 g = Some (map Some (fs0 ++ fs ++ fsLater)).
Proof.
  intros Hms Hlater HE Hwf Hh.
  destruct (Group_spec e pfx ms fs hp E fs0 Hms HE Hwf Hh)
    as (g & hp1 & s1 & HG & Hge & HGg & HE1 & Hwf1 & Hh1 & Hap1 & Harr1).
  set (G1 := setMiddleware s1 (setPrefix (path_Join ["/"; prefix E; pfx]) E)) in *.
  destruct (Use_spec g later fsLater Hlater hp1 G1 (fs0 ++ fs)%list HGg)
    as (s2 & hp2 & HUse & HG2 & Hother & Hwf2 & Hh2 & _ & Hfr); [exact Hwf1 | exact Hh1 |].
  destruct (Hfr (array (middleware E)) Hap1) as [Hap2 Harr2].
  assert (HE2 : echos hp2 !! e = Some E) by (rewrite Hother by congruence; exact HE1).
  assert (Hp1 : holds hp1 (middleware E) fs0) by (eapply holds_frame; eauto).
  assert (Hp2 : holds hp2 (middleware E) fs0)
    by (eapply holds_frame; [|exact Hh]; congruence).
  exists g, hp1, hp2, G1, (setMiddleware s2 G1).
  split; [exact HG|]. split; [exact HUse|]. split; [exact Hge|].
  split; [exact HE1|].
  split; [rewrite (middlewareOf_holds _ _ _ _ HE1 Hp1), (middlewareOf_holds _ _ _ _ HE Hh); reflexivity|].
  split; [exact HE2|].
  split; [rewrite (middlewareOf_holds _ _ _ _ HE2 Hp2), (middlewareOf_holds _ _ _ _ HE Hh); reflexivity|].
  split; [exact HGg|]. split; [exact HG2|].
  split; [reflexivity|]. split; [reflexivity|].
  split; [simpl; intros Heq; apply Hap1; now rewrite Heq|].
  split; [simpl; intros Heq; apply Hap2; now rewrite Heq|].
  split; [apply (middlewareOf_holds _ _ _ _ HGg); exact Hh1|].
  rewrite (middlewareOf_holds hp2 g _ (fs0 ++ fs ++ fsLater) HG2); [reflexivity|].
  simpl. now rewrite app_assoc.
Qed.


Lemma loadRouter_Some r R hp : routers hp !! r = Some R -> loadRouter r hp = Built R hp.
Proof. intros H. unfold loadRouter, sbind, sget, sderef. now rewrite H. Qed.

Lemma storeRouter_Some r R R' hp :
  routers hp !! r = Some R -> storeRouter r R' hp = Built tt (setRouters (insert r R') hp).
Proof. intros H. unfold storeRouter, sbind. now rewrite (loadRouter_Some _ _ _ H). Qed.

Lemma add_run e method path h hf hp E Rt :
  echos hp !! e = Some E -> routers hp !! router E = Some Rt ->
  wrapHandler h = Done hf ->
  let full := path_Join [prefix E; "/"; path] in
  add e method path h hp =
  match Router_Add method full hf e (tree Rt) with
  | Done t =>
      let hp1 := setRouters (insert (router E) (mkRouter (routes Rt) t)) hp in
      match funcName h with
      | Done name =>
          Built tt (setRouters
                      (insert (router E)
                         (mkRouter (routes Rt ++ [mkRoute method full name])%list t))
                      hp1)
      | Panicked v => Aborted v hp1
      end
  | Panicked v => Aborted v hp
  end.
Proof.
  intros HE HRt Hh full. unfold add.
  unfold sbind at 1. rewrite (loadEcho_Some _ _ _ HE).
  unfold sbind at 1. rewrite (loadRouter_Some _ _ _ HRt).
  unfold sbind at 1. rewrite Hh. simpl. fold full.
  unfold sbind at 1.
  destruct (Router_Add method full hf e (tree Rt)) as [t|v]; simpl; [|reflexivity].
  unfold sbind at 1. rewrite (storeRouter_Some _ _ _ _ HRt).
  unfold sbind at 1.
  destruct (funcName h) as [name|v]; simpl; [|reflexivity].
  unfold sbind at 1. erewrite loadRouter_Some by (simpl; apply lookup_insert_eq).
  erewrite storeRouter_Some by (simpl; apply lookup_insert_eq).
  reflexivity.
Qed.

(** C8. A shape outside the accepted ones is rejected when it is
    registered: [wrapMiddleware] and [wrapHandler] panic on it, so [Use]
    aborts at the first such middleware (those before it are registered)
    and [add] aborts before the router is touched. Every accepted shape is
    turned into a [MiddlewareFunc] or [HandlerFunc] at that moment: [Use]
    stores the wrapped functions, none of them nil, and [add] hands the
    wrapped handler to [Router.Add]. *)
Theorem unknown_shapes_fail_at_registration e hp E Rt fs0 (m : Middleware) (h : Handler) :
  echos hp !! e = Some E ->
  routers hp !! router E = Some Rt ->
  wfSlice hp (middleware E) -> holds hp (middleware E) fs0 ->
  (if acceptedMiddleware m
   then exists f, wrapMiddleware m = Done f
   else wrapMiddleware m = Panicked "unknown middleware") /\
  (if acceptedHandler h
   then exists hf, wrapHandler h = Done hf
   else wrapHandler h = Panicked "unknown handler") /\
  (forall ms fs, wrapped ms fs ->
     exists hp1, Use e ms hp = Built tt hp1 /\
                 middlewareOf hp1 e = Some (map Some (fs0 ++ fs))) /\
  (forall ms fs rest, wrapped ms fs -> acceptedMiddleware m = false ->
     exists hp1, Use e (ms ++ m :: rest) hp = Aborted "unknown middleware" hp1 /\
                 middlewareOf hp1 e = Some (map Some (fs0 ++ fs))) /\
  (forall method path, acceptedHandler h = false ->
     add e method path h hp = Aborted "unknown handler" hp) /\
  (forall method path hf, wrapHandler h = Done hf ->
     add e method path h hp =
     match Router_Add method (path_Join [prefix E; "/"; path]) hf e (tree Rt) with
     | Done t =>
         let hp1 := setRouters (insert (router E) (mkRouter (routes Rt) t)) hp in
         match funcName h with
         | Done name =>
             Built tt (setRouters
                         (insert (router E)
                            (mkRouter (routes Rt ++
                                       [mkRoute method (path_Join [prefix E; "/"; path])
                                                name])%list t))
                         hp1)
         | Panicked v => Aborted v hp1
         end
     | Panicked v => Aborted v hp
     end).
Proof.
  intros HE HRt Hwf Hh.
  split; [destruct m; simpl; eauto|].
  split; [destruct h; simpl; eauto|].
  split.
  { intros ms fs Hms.
    destruct (Use_spec e ms fs Hms hp E fs0 HE Hwf Hh)
      as (s' & hp' & HUse & HE' & _ & _ & Hh' & _).
    exists hp'. split; [exact HUse|].
    now apply (middlewareOf_holds _ _ _ _ HE'). }
  split.
  { intros ms fs rest Hms Hm.
    destruct (Use_spec e ms fs Hms hp E fs0 HE Hwf Hh)
      as (s' & hp' & HUse & HE' & _ & _ & Hh' & _).
    exists hp'. split.
    - rewrite Use_app. unfold sbind. rewrite HUse.
      now apply (Use_rejects _ _ _ _ _ HE').
    - now apply (middlewareOf_holds _ _ _ _ HE'). }
  split.
  { intros method path Hbad. unfold add.
    unfold sbind at 1. rewrite (loadEcho_Some _ _ _ HE).
    unfold sbind at 1. rewrite (loadRouter_Some _ _ _ HRt).
    destruct h; try discriminate. reflexivity. }
  intros method path hf Hhf. now apply add_run.
Qed.


End Registering.

(** ** Chains and handlers *)

Section Chains.
Context {K : Collaborators}.

Lemma Response_Write_run c C data w :
  ctxs w !! c = Some C ->
  Response_Write c data w =
  Returns tt (setSent (fun l => l ++ [WBody (writer (response C)) data])%list w).
Proof. intros H. unfold Response_Write, bind. now rewrite (loadCtx_Some _ _ _ H). Qed.

Lemma observers_nest tags name c C :
  forall w, ctxs w !! c = Some C ->
  exists w',
    composed (map observer tags) (endpoint name) c w = Returns None w' /\
    sent w' = (sent w ++ marks (writer (response C)) tags name)%list /\
    ctxs w' = ctxs w.
Proof.
  induction tags as [|t tags IH]; intros w HC; simpl.
  - unfold endpoint, bind. rewrite (Response_Write_run _ _ _ _ HC).
    eexists. split; [reflexivity|]. split; reflexivity.
  - unfold observer at 1, bind.
    rewrite (Response_Write_run _ _ _ _ HC).
    destruct (IH (setSent (fun l => l ++ [WBody (writer (response C)) ("<" ++ t)])%list w))
      as (w1 & Hrun & Hsent & Hctx); [exact HC|].
    fold (composed (map observer tags) (endpoint name)).
    rewrite Hrun.
    assert (HC1 : ctxs w1 !! c = Some C) by (rewrite Hctx; exact HC).
    rewrite (Response_Write_run _ _ _ _ HC1).
    eexists. split; [reflexivity|]. split.
    + simpl. rewrite Hsent. unfold marks. simpl.
      rewrite map_app. simpl. rewrite <- !app_assoc. simpl.
      rewrite <- ?app_assoc. reflexivity.
    + simpl. exact Hctx.
Qed.

(** C1. Middleware registered through [Use] in the order m1, ..., mn
    is composed by [ServeHTTP] into m1 (m2 (... (mn h))) around the
    handler [h] that the router resolved, and that composed chain is what
    it executes. The first registered middleware is outermost: observers
    leave their request marks in registration order and their response
    marks in the reverse order, around the mark of the handler. *)
Theorem middleware_runs_in_registration_order e' ms fs hp0 E0 fs0 :
  wrapped ms fs ->
  echos hp0 !! e' = Some E0 ->
  wfSlice hp0 (middleware E0) -> holds hp0 (middleware E0) fs0 ->
  exists hp,
    Use e' ms hp0 = Built tt hp /\
    middlewareOf hp e' = Some (map Some (fs0 ++ fs)) /\
    (forall h w, compose hp e' h w = Returns (composed (fs0 ++ fs) h) w) /\
    (forall e w r w0 j0 c h w1,
       lookup hp e w r w0 = (j0, Returns (c, h, e') w1) ->
       ServeHTTP hp e w r w0 =
       ((j0 ++ fst (execute hp e' c (composed (fs0 ++ fs) h) w1))%list,
        snd (execute hp e' c (composed (fs0 ++ fs) h) w1))) /\
    (forall tags name c C w, ctxs w !! c = Some C ->
       exists w',
         composed (map observer tags) (endpoint name) c w = Returns None w' /\
         sent w' = (sent w ++ marks (writer (response C)) tags name)%list).
Proof.
  intros Hms HE Hwf Hh.
  destruct (Use_spec e' ms fs Hms hp0 E0 fs0 HE Hwf Hh)
    as (s' & hp & HUse & HE' & _ & _ & Hh' & _).
  exists hp. split; [exact HUse|].
  split; [now apply (middlewareOf_holds _ _ _ _ HE')|].
  split; [intros h w; now apply (compose_composed hp e' _ _ h w HE')|].
  split.
  - intros e w r w0 j0 c h w1 Hl.
    now apply (ServeHTTP_run hp e w r w0 j0 c h e' w1 _ _ Hl HE').
  - intros tags name c C w HC.
    destruct (observers_nest tags name c C w HC) as (w' & H1 & H2 & _). eauto.
Qed.

(** C9. A plain handler function registered as middleware becomes
    [wrapHandlerFuncMW] of it, which runs the function first: if it
    returns an error, that error is the result whatever the next handler
    is, so the next handler does not run; if it returns nil, the result is
    that of the next handler, run in the world the function left. *)
Theorem handler_as_middleware_runs_first (m : HandlerFunc) (next : HandlerFunc) (c : loc) (w : World) :
  wrapMiddleware (M_HandlerFunc m) = Done (wrapHandlerFuncMW m) /\
  wrapMiddleware (M_funcContext m) = Done (wrapHandlerFuncMW m) /\
  match m c w with
  | Returns (Some err) w' =>
      forall other : HandlerFunc, wrapHandlerFuncMW m other c w = Returns (Some err) w'
  | Returns None w' => wrapHandlerFuncMW m next c w = next c w'
  | Panics v w' => wrapHandlerFuncMW m next c w = Panics v w'
  end.
Proof.
  split; [reflexivity|]. split; [reflexivity|].
  unfold wrapHandlerFuncMW, bind.
  destruct (m c w) as [[err|] w'|v w']; reflexivity.
Qed.


Lemma defaultHandler_run hp e E err c C w :
  echos hp !! e = Some E -> ctxs w !! c = Some C ->
  defaultHandler hp e err c w =
  Returns tt
    (if committed (response C)
     then setLogged (fun l => l ++ [err])%list w
     else setLogged (fun l => l ++ [err])%list
            (setSent (fun l => l ++ [WBody (writer (response C))
                                           (specMessage (debug E) err ++ newline)])%list
               (setSent (fun l => l ++ [WHeader (writer (response C)) (specStatus err)])%list
                  (setCtxs (insert c (commit (specStatus err) C)) w)))).
Proof.
  intros HE HC.
  assert (Hgen : forall st msg0,
    (bind (deref (echos hp !! e)) (fun E0 =>
       let msg := if debug E0 then Error err else msg0 in
       bind (loadCtx c) (fun C0 =>
         bind (if negb (committed (response C0))
               then http_Error (ResponseOf c) msg st else ret tt)
              (fun _ => logger_Error err)))) w =
    Returns tt
      (if committed (response C)
       then setLogged (fun l => l ++ [err])%list w
       else setLogged (fun l => l ++ [err])%list
              (setSent (fun l => l ++ [WBody (writer (response C))
                                (((if debug E then Error err else msg0)) ++ newline)])%list
                 (setSent (fun l => l ++ [WHeader (writer (response C)) st])%list
                    (setCtxs (insert c (commit st C)) w))))).
  { intros st msg0. unfold bind at 1, deref. rewrite HE. simpl.
    unfold bind at 1. rewrite (loadCtx_Some _ _ _ HC).
    destruct (committed (response C)) eqn:Hc; simpl.
    - reflexivity.
    - unfold bind at 1, http_Error, bind at 1, Response_WriteHeader, bind at 1.
      rewrite (loadCtx_Some _ _ _ HC), Hc.
      unfold bind at 1. rewrite (storeCtx_Some _ _ _ _ HC). simpl.
      unfold Response_Write, bind at 1.
      erewrite loadCtx_Some by (simpl; apply lookup_insert_eq).
      reflexivity. }
  unfold defaultHandler. destruct err as [he|t]; simpl; apply Hgen.
Qed.

(** C3. The default HTTP error handler takes status and message from an
    [HTTPError], and status 500 with its status text from any other
    error; in debug mode the message is the text of [err.Error()]; the
    error is handed to the logger in every case. *)
Theorem default_handler_status_and_message hp e E err c C w :
  echos hp !! e = Some E -> ctxs w !! c = Some C ->
  exists w',
    defaultHandler hp e err c w = Returns tt w' /\
    logged w' = (logged w ++ [err])%list /\
    (committed (response C) = false ->
     sent w' = (sent w ++ [WHeader (writer (response C)) (specStatus err);
                           WBody (writer (response C))
                                 (specMessage (debug E) err ++ newline)])%list /\
     ctxs w' !! c = Some (commit (specStatus err) C)) /\
    (forall he, err = HTTPErr he ->
       specStatus err = code he /\ specMessage false err = message he) /\
    (forall t, err = PlainErr t ->
       specStatus err = StatusInternalServerError /\
       specMessage false err = StatusText StatusInternalServerError) /\
    specMessage true err = Error err.
Proof.
  intros HE HC. eexists. split; [apply (defaultHandler_run _ _ _ _ _ _ _ HE HC)|].
  split; [destruct (committed (response C)); reflexivity|].
  split.
  { intros ->. simpl. split; [now rewrite <- app_assoc | apply lookup_insert_eq]. }
  split; [intros he ->; split; reflexivity|].
  split; [intros t ->; split; reflexivity | reflexivity].
Qed.

(** C4. The default HTTP error handler writes status and message only to
    a response that is not committed. On a committed response it changes
    nothing but the log; and once it has written, the response is
    committed, so handling another error on it only logs. *)
Theorem committed_response_is_not_rewritten hp e E err c C w :
  echos hp !! e = Some E -> ctxs w !! c = Some C ->
  (committed (response C) = true ->
   defaultHandler hp e err c w = Returns tt (setLogged (fun l => l ++ [err])%list w)) /\
  (committed (response C) = false ->
   exists w',
     defaultHandler hp e err c w = Returns tt w' /\
     sent w' = (sent w ++ [WHeader (writer (response C)) (specStatus err);
                           WBody (writer (response C))
                                 (specMessage (debug E) err ++ newline)])%list /\
     ctxs w' !! c = Some (commit (specStatus err) C) /\
     forall err2,
       defaultHandler hp e err2 c w' = Returns tt (setLogged (fun l => l ++ [err2])%list w')).
Proof.
  intros HE HC. split.
  - intros Hc. rewrite (defaultHandler_run _ _ _ _ _ _ _ HE HC), Hc. reflexivity.
  - intros Hc. eexists.
    split; [rewrite (defaultHandler_run _ _ _ _ _ _ _ HE HC), Hc; reflexivity|].
    split; [simpl; now rewrite <- app_assoc|].
    split; [simpl; apply lookup_insert_eq|].
    intros err2.
    erewrite defaultHandler_run; [|exact HE|simpl; apply lookup_insert_eq].
    reflexivity.
Qed.

End Chains.

(** ** The site at work *)

(** The failing route of the site: one call of the error handler. *)
Lemma error_handler_called_once_witness : errorHandlerCalls (fst (ServeHTTP siteHeap 1%nat (ConnWriter 7) 1%nat (arrival "/fail"))) = 1%nat.
Proof.
  refine (proj1 (error_handler_called_once siteHeap 1%nat (ConnWriter 7) 1%nat (arrival "/fail")
            _ _ _ _ _ _ [observer "a"; observer "b"] (Some (PlainErr "boom")) _ _ _ _ _)).
  - reflexivity.
  - reflexivity.
  - split; reflexivity.
  - reflexivity.
Defined.

(** A request for [/hello/] is looked up as [/hello]. *)
Lemma ServeHTTP_finds_normalized_path_witness : In (CallFind "GET" "/hello" 1%nat) (fst (ServeHTTP siteHeap 1%nat (ConnWriter 7) 1%nat (arrival "/hello/"))).
Proof.
  destruct (ServeHTTP_finds_normalized_path siteHeap 1%nat (ConnWriter 7) 1%nat (arrival "/hello/")
             siteEcho (arrival "/hello/") (mkRequest "GET" "/hello/") 1%nat
             (pooled (arrival "/hello")) siteRouter)
    as (_ & _ & _ & (j & Hj) & _).
  - vm_compute. reflexivity.
  - vm_compute. reflexivity.
  - vm_compute. reflexivity.
  - vm_compute. reflexivity.
  - vm_compute. reflexivity.
  - rewrite Hj. simpl. auto.
Defined.

(** On a new Echo, [Use] of two observers registers them in that order. *)
Lemma middleware_runs_in_registration_order_witness :
  exists hp, Use 1%nat siteMiddleware newHeap = Built tt hp /\
             middlewareOf hp 1%nat = Some [Some (observer "a"); Some (observer "b")].
Proof.
  destruct (middleware_runs_in_registration_order (K := staticRouting) 1%nat siteMiddleware
              [observer "a"; observer "b"] newHeap newEcho [])
    as (hp & HUse & Hmw & _).
  - repeat constructor.
  - vm_compute. reflexivity.
  - split; [simpl; lia | left; split; reflexivity].
  - split; reflexivity.
  - exists hp. split; [exact HUse | exact Hmw].
Defined.

(** On the site, [Find] comes before [reset]. *)
Lemma ServeHTTP_finds_then_resets_witness :
  before (position isFind (fst (ServeHTTP siteHeap 1%nat (ConnWriter 7) 1%nat (arrival "/hello"))))
         (position isReset (fst (ServeHTTP siteHeap 1%nat (ConnWriter 7) 1%nat (arrival "/hello")))).
Proof.
  destruct (ServeHTTP_finds_then_resets siteHeap 1%nat (ConnWriter 7) 1%nat (arrival "/hello")
             siteEcho (arrival "/hello") (mkRequest "GET" "/hello") 1%nat
             (pooled (arrival "/hello")) siteRouter (endpoint "hello") 1%nat
             (pooled (arrival "/hello")) (NewContext nil (mkResponse NilWriter 0 false) 1%nat))
    as (_ & _ & _ & H & _).
  - vm_compute. reflexivity.
  - vm_compute. reflexivity.
  - vm_compute. reflexivity.
  - vm_compute. reflexivity.
  - vm_compute. reflexivity.
  - vm_compute. reflexivity.
  - vm_compute. reflexivity.
  - exact H.
Defined.

(** C6, as stated, fails. On the site, for a request of [/hello], the
    journal has [reset] after [Find], not before it; and a router that
    inspects the context it is given finds it without a request, as the
    pool built it. *)
Lemma reset_before_Find_counterexample :
  ~ before (position isReset (fst (ServeHTTP siteHeap 1%nat (ConnWriter 7) 1%nat (arrival "/hello"))))
           (position isFind (fst (ServeHTTP siteHeap 1%nat (ConnWriter 7) 1%nat (arrival "/hello")))) /\
  fst (ServeHTTP siteHeap 1%nat (ConnWriter 7) 1%nat (arrival "/hello")) =
    [CallPoolGet 1%nat; CallFind "GET" "/hello" 1%nat; CallReset 1%nat 1%nat (ConnWriter 7) 1%nat;
     CallChain 1%nat; CallPoolPut 1%nat 1%nat] /\
  match snd (ServeHTTP probingHeap 1%nat (ConnWriter 7) 1%nat (arrival "/hello")) with
  | Returns _ w => sent w = [WBody (ConnWriter 7) "Find saw a context without a request"]
  | Panics _ _ => False
  end.
Proof.
  split; [|split].
  - vm_compute. lia.
  - vm_compute. reflexivity.
  - vm_compute. reflexivity.
Qed.

(** The failing route of the site: the context goes back to the pool. *)
Lemma context_released_after_chain_witness :
  last (fst (ServeHTTP siteHeap 1%nat (ConnWriter 7) 1%nat (arrival "/fail"))) =
  Some (CallPoolPut 1%nat 1%nat).
Proof.
  refine (proj1 (proj2 (context_released_after_chain siteHeap 1%nat (ConnWriter 7) 1%nat
            (arrival "/fail") _ _ _ _ _ _ [observer "a"; observer "b"]
            (Some (PlainErr "boom")) _ _ _ _ _ _ _))).
  - vm_compute. reflexivity.
  - vm_compute. reflexivity.
  - split; vm_compute; reflexivity.
  - vm_compute. reflexivity.
  - vm_compute. reflexivity.
Defined.

(** A not-found error on a live context: status 404 and its text go out. *)
Lemma default_handler_status_and_message_witness :
  exists w',
    defaultHandler siteHeap 1%nat (HTTPErr (NewHTTPError StatusNotFound [])) 1%nat
                   (served 1%nat liveContext) = Returns tt w' /\
    sent w' = [WHeader (ConnWriter 7) 404; WBody (ConnWriter 7) ("Not Found" ++ newline)].
Proof.
  destruct (default_handler_status_and_message siteHeap 1%nat siteEcho
              (HTTPErr (NewHTTPError StatusNotFound [])) 1%nat liveContext
              (served 1%nat liveContext))
    as (w' & Hrun & _ & Hsent & _).
  - vm_compute. reflexivity.
  - vm_compute. reflexivity.
  - exists w'. split; [exact Hrun|]. destruct (Hsent eq_refl) as [-> _]. reflexivity.
Defined.

(** An error on a committed response is logged and nothing else. *)
Lemma committed_response_is_not_rewritten_witness :
  defaultHandler siteHeap 1%nat (PlainErr "boom") 1%nat (served 1%nat (commit 200 liveContext)) =
  Returns tt (setLogged (fun l => l ++ [PlainErr "boom"])%list
                        (served 1%nat (commit 200 liveContext))).
Proof.
  refine (proj1 (committed_response_is_not_rewritten siteHeap 1%nat siteEcho (PlainErr "boom")
                   1%nat (commit 200 liveContext) (served 1%nat (commit 200 liveContext)) _ _) _).
  - vm_compute. reflexivity.
  - vm_compute. reflexivity.
  - reflexivity.
Defined.

(** An [int] is rejected both as middleware and as handler. *)
Lemma unknown_shapes_fail_at_registration_witness :
  (exists hp1, Use 1%nat [M_other "int"] newHeap = Aborted "unknown middleware" hp1) /\
  add 1%nat "GET" "/x" (H_other "int") newHeap = Aborted "unknown handler" newHeap.
Proof.
  destruct (unknown_shapes_fail_at_registration (K := staticRouting) 1%nat newHeap newEcho
              newRouter [] (M_other "int") (H_other "int"))
    as (_ & _ & _ & HUse & Hadd & _).
  - vm_compute. reflexivity.
  - vm_compute. reflexivity.
  - split; [simpl; lia | left; split; reflexivity].
  - split; reflexivity.
  - split.
    + destruct (HUse [] [] [] ltac:(constructor) eq_refl) as (hp1 & H & _). exists hp1. exact H.
    + apply Hadd. reflexivity.
Defined.

(** A group of the site with middleware of its own leaves the site alone. *)
Lemma Group_leaves_parent_alone_witness :
  exists g hp1 hp2,
    Group 1%nat "/api" [M_HandlerFunc (endpoint "auth")] siteHeap = Built g hp1 /\
    Group_Use g [M_MiddlewareFunc (observer "c")] hp1 = Built tt hp2 /\
    middlewareOf hp2 1%nat = middlewareOf siteHeap 1%nat.
Proof.
  destruct (Group_leaves_parent_alone (K := staticRouting) 1%nat "/api"
              [M_HandlerFunc (endpoint "auth")] [wrapHandlerFuncMW (endpoint "auth")]
              [M_MiddlewareFunc (observer "c")] [observer "c"]
              siteHeap siteEcho [observer "a"; observer "b"])
    as (g & hp1 & hp2 & G1 & G2 & HG & HU & _ & _ & _ & _ & Hp & _).
  - repeat constructor.
  - repeat constructor.
  - vm_compute. reflexivity.
  - split; [simpl; lia | right; eexists; split; vm_compute; reflexivity].
  - split; vm_compute; reflexivity.
  - exists g, hp1, hp2. repeat split; assumption.
Defined.

(** * More properties *)

(** ** Reversing routes *)

Lemma skipSegment_length (s : string) :
  (String.length (skipSegment s) <= String.length s)%nat.
Proof.
  induction s as [|a t IH]; simpl; [lia|].
  destruct (Ascii.eqb a "/"%char); simpl; lia.
Qed.

Lemma fillPath_fuel (f1 : nat) :
  forall f2 s n ps,
    (String.length s <= f1)%nat -> (String.length s <= f2)%nat ->
    fillPath f1 s n ps = fillPath f2 s n ps.
Proof.
  induction f1 as [|f1 IH]; intros f2 s n ps H1 H2.
  - destruct s; simpl in H1; [|lia]. now destruct f2.
  - destruct f2 as [|f2]; [destruct s; simpl in H2; [reflexivity | lia]|].
    destruct s as [|a t]; [reflexivity|]. simpl in H1, H2.
    cbn [fillPath].
    destruct (Ascii.eqb a ":"%char && (n <? length ps)%nat).
    + pose proof (skipSegment_length (String a t)) as Hs.
      destruct (skipSegment (String a t)) as [|b t']; [reflexivity|].
      simpl in Hs. f_equal. f_equal. apply IH; lia.
    + f_equal. apply IH; lia.
Qed.

Lemma length_append (s t : string) :
  String.length (s ++ t) = (String.length s + String.length t)%nat.
Proof. induction s as [|a s IH]; simpl; [reflexivity | now rewrite IH]. Qed.

Lemma append_empty_r (s : string) : s ++ EmptyString = s.
Proof.
  induction s as [|a s IH]; [reflexivity|].
  change (String a s ++ EmptyString) with (String a (s ++ EmptyString)).
  now rewrite IH.
Qed.

Lemma fillPath_static (s : string) :
  forall fuel rest n ps,
    lacks ":"%char s = true ->
    (String.length (s ++ rest) <= fuel)%nat ->
    fillPath fuel (s ++ rest) n ps = s ++ fillPath fuel rest n ps.
Proof.
  induction s as [|a s IH]; intros fuel rest n ps Hs Hf; [reflexivity|].
  simpl in Hs. apply andb_true_iff in Hs as [Ha Hs].
  apply negb_true_iff in Ha.
  destruct fuel as [|fuel]; [simpl in Hf; lia|].
  simpl in Hf. rewrite length_append in Hf.
  rewrite (fillPath_fuel (S fuel) fuel rest n ps) by lia.
  change (String a s ++ rest) with (String a (s ++ rest)).
  cbn [fillPath]. rewrite Ha. cbn [andb].
  change (String a s ++ fillPath fuel rest n ps)
    with (String a (s ++ fillPath fuel rest n ps)).
  f_equal. apply IH; [exact Hs | rewrite length_append; lia].
Qed.

Lemma fillPath_verbatim (s : string) :
  forall fuel n ps,
    (length ps <= n)%nat -> (String.length s <= fuel)%nat ->
    fillPath fuel s n ps = s.
Proof.
  induction s as [|a s IH]; intros fuel n ps Hn Hf.
  - now destruct fuel.
  - destruct fuel as [|fuel]; [simpl in Hf; lia|]. cbn [fillPath].
    destruct (Nat.ltb_spec n (length ps)) as [|_]; [lia|].
    rewrite andb_false_r. f_equal. apply IH; [exact Hn | simpl in Hf; lia].
Qed.

Lemma fillPath_no_colon (s : string) :
  forall fuel n ps,
    lacks ":"%char s = true -> (String.length s <= fuel)%nat ->
    fillPath fuel s n ps = s.
Proof.
  induction s as [|a s IH]; intros fuel n ps Hs Hf.
  - now destruct fuel.
  - destruct fuel as [|fuel]; [simpl in Hf; lia|]. cbn [fillPath].
    simpl in Hs. apply andb_true_iff in Hs as [Ha Hs].
    apply negb_true_iff in Ha. rewrite Ha. cbn [andb].
    f_equal. apply IH; [exact Hs | simpl in Hf; lia].
Qed.

Lemma skipSegment_name (nm rest : string) :
  lacks "/"%char nm = true ->
  endsName rest = true ->
  skipSegment (nm ++ rest) = rest.
Proof.
  intros Hnm Hrest. induction nm as [|a nm IH]; simpl.
  - destruct rest as [|b t]; [reflexivity|]. simpl in *. now rewrite Hrest.
  - simpl in Hnm. apply andb_true_iff in Hnm as [Ha Hnm].
    apply negb_true_iff in Ha. rewrite Ha. now apply IH.
Qed.

Lemma template_follows (pieces : list (string * string)) (tail : string) :
  match pieces with
  | [] => endsName tail
  | (s', _) :: _ => beginsWithSlash s'
  end = true ->
  endsName (template pieces tail) = true.
Proof.
  destruct pieces as [|[s' nm'] rest]; cbn [template]; intros H; [exact H|].
  destruct s' as [|b t]; [discriminate | exact H].
Qed.

Lemma fillPath_filled (pieces : list (string * string)) :
  forall tail ps done fuel,
    placeholders pieces tail = true ->
    (length ps <= length pieces)%nat \/ lacks ":"%char tail = true ->
    (String.length (template pieces tail) <= fuel)%nat ->
    fillPath fuel (template pieces tail) (length done) (done ++ ps)%list
    = filled pieces ps tail.
Proof.
  induction pieces as [|[s nm] rest IH]; intros tail ps done fuel Hp Hps Hf.
  - simpl in *. destruct ps as [|p ps'].
    + rewrite app_nil_r. now apply fillPath_verbatim.
    + destruct Hps as [Hps|Hps]; [simpl in Hps; lia|].
      now apply fillPath_no_colon.
  - cbn [placeholders] in Hp.
    apply andb_true_iff in Hp as [Hp Hrest].
    apply andb_true_iff in Hp as [Hp Hfollow].
    apply andb_true_iff in Hp as [Hs Hnm].
    cbn [template] in *.
    rewrite fillPath_static by assumption.
    destruct ps as [|p ps'].
    + simpl. f_equal. rewrite app_nil_r.
      apply fillPath_verbatim; [lia|]. rewrite length_append in Hf. lia.
    + cbn [filled]. f_equal.
      rewrite length_append in Hf. simpl in Hf.
      destruct fuel as [|fuel]; [lia|].
      cbn [fillPath]. simpl Ascii.eqb.
      assert (Hlt : (length done <? length (done ++ p :: ps'))%nat = true)
        by (apply Nat.ltb_lt; rewrite length_app; simpl; lia).
      rewrite Hlt. simpl andb.
      assert (Hskip : skipSegment (String ":"%char (nm ++ template rest tail))
                      = template rest tail).
      { simpl. apply skipSegment_name; [exact Hnm|].
        now apply template_follows. }
      rewrite Hskip.
      assert (Hnth : nth (length done) (done ++ p :: ps') EmptyString = p).
      { rewrite app_nth2 by lia. now rewrite Nat.sub_diag. }
      rewrite Hnth.
      pose proof (template_follows rest tail Hfollow) as Hb.
      rewrite length_append in Hf.
      assert (IH' := IH tail ps' (done ++ [p])%list (S fuel) Hrest).
      rewrite <- app_assoc, length_app in IH'. simpl in IH'.
      rewrite Nat.add_1_r in IH'.
      rewrite <- IH'.
      * destruct (template rest tail) as [|b t'] eqn:HT.
        -- simpl. now rewrite append_empty_r.
        -- cbn [fillPath]. simpl in Hb.
           apply Ascii.eqb_eq in Hb. subst b. reflexivity.
      * destruct Hps as [Hps|Hps]; [left; simpl in Hps; lia | right; exact Hps].
      * lia.
Qed.

Section Reversing.
Context {K : Collaborators}.

Lemma URI_run e h hn params hp E Rt :
  echos hp !! e = Some E -> routers hp !! router E = Some Rt ->
  funcName h = Done hn ->
  URI e h params hp = Built (reverseRoute (routes Rt) hn params) hp.
Proof.
  intros HE HRt Hn. unfold URI.
  unfold sbind at 1. rewrite Hn. simpl.
  unfold sbind at 1. rewrite (loadEcho_Some _ _ _ HE).
  unfold sbind at 1. rewrite (loadRouter_Some _ _ _ HRt).
  reflexivity.
Qed.

Lemma reverseRoute_skip rs1 rs2 hn params :
  Forall (fun r => HandlerName r <> hn) rs1 ->
  reverseRoute (rs1 ++ rs2) hn params = reverseRoute rs2 hn params.
Proof.
  induction 1 as [|r rs1 Hr _ IH]; [reflexivity|]. simpl.
  destruct (String.eqb (HandlerName r) hn) eqn:Heq; [|exact IH].
  apply String.eqb_eq in Heq. contradiction.
Qed.

Lemma reverseRoute_first rs1 r rs2 hn params :
  Forall (fun r => HandlerName r <> hn) rs1 ->
  HandlerName r = hn ->
  reverseRoute (rs1 ++ r :: rs2) hn params
  = fillPath (String.length (Path r)) (Path r) 0 params.
Proof.
  intros H1 Hr. rewrite reverseRoute_skip by exact H1. simpl.
  now rewrite (proj2 (String.eqb_eq _ _) Hr).
Qed.

(** X1. [URI] of a handler under whose name no route is registered is the
    empty string, whatever the parameters, and the store is left as it
    was. *)
Theorem URI_of_unregistered_handler e h hn params hp E Rt :
  echos hp !! e = Some E -> routers hp !! router E = Some Rt ->
  funcName h = Done hn ->
  Forall (fun r => HandlerName r <> hn) (routes Rt) ->
  URI e h params hp = Built EmptyString hp.
Proof.
  intros HE HRt Hn Hnone. rewrite (URI_run e h hn params hp E Rt HE HRt Hn).
  f_equal. rewrite <- (app_nil_r (routes Rt)).
  now rewrite reverseRoute_skip.
Qed.

(** X2. [URI] fills in the first route registered under the name of the
    handler. When the path of that route is a template whose parameter
    names each run up to the next slash or to the end, the result is the
    template with its first parameters replaced, in order, by the values
    given; parameters that are left over when the values run out stay as
    they are written, and later routes of the same handler are not looked
    at. *)
Theorem URI_fills_first_route e h hn hp E Rt rs1 r rs2 pieces tail ps :
  echos hp !! e = Some E -> routers hp !! router E = Some Rt ->
  funcName h = Done hn ->
  routes Rt = (rs1 ++ r :: rs2)%list ->
  Forall (fun r => HandlerName r <> hn) rs1 ->
  HandlerName r = hn ->
  Path r = template pieces tail ->
  placeholders pieces tail = true ->
  (length ps <= length pieces)%nat \/ lacks ":"%char tail = true ->
  URI e h ps hp = Built (filled pieces ps tail) hp.
Proof.
  intros HE HRt Hn Hrs H1 Hr Hpath Hpl Hps.
  rewrite (URI_run e h hn ps hp E Rt HE HRt Hn). f_equal.
  rewrite Hrs, (reverseRoute_first rs1 r rs2 hn ps H1 Hr), Hpath.
  apply (fillPath_filled pieces tail ps [] _ Hpl Hps). lia.
Qed.

(** X3. A route registered through [add] can be reversed: after
    [add e method path h], with no earlier route under the name of [h],
    [URI e h ps] is the registered path with its parameters filled in, and
    [Routes] shows the new route, with its method, full path and handler
    name, after the routes that were there. *)
Theorem add_then_URI e method path h hf hn t hp E Rt pieces tail ps :
  echos hp !! e = Some E -> routers hp !! router E = Some Rt ->
  wrapHandler h = Done hf -> funcName h = Done hn ->
  Router_Add method (path_Join [prefix E; "/"; path]) hf e (tree Rt) = Done t ->
  Forall (fun r => HandlerName r <> hn) (routes Rt) ->
  path_Join [prefix E; "/"; path] = template pieces tail ->
  placeholders pieces tail = true ->
  (length ps <= length pieces)%nat \/ lacks ":"%char tail = true ->
  exists hp',
    add e method path h hp = Built tt hp' /\
    URI e h ps hp' = Built (filled pieces ps tail) hp' /\
    Routes e hp' =
      Built (routes Rt ++ [mkRoute method (path_Join [prefix E; "/"; path]) hn])%list hp'.
Proof.
  intros HE HRt Hh Hn Hadd Hnone Hpath Hpl Hps.
  pose proof (add_run e method path h hf hp E Rt HE HRt Hh) as Hrun.
  simpl in Hrun. rewrite Hadd, Hn in Hrun.
  eexists. split; [exact Hrun|].
  set (full := path_Join [prefix E; "/"; path]) in *.
  set (Rt' := mkRouter (routes Rt ++ [mkRoute method full hn])%list t).
  assert (HE' : echos (setRouters (insert (router E) Rt')
                  (setRouters (insert (router E) (mkRouter (routes Rt) t)) hp)) !! e = Some E)
    by exact HE.
  assert (HRt' : routers (setRouters (insert (router E) Rt')
                  (setRouters (insert (router E) (mkRouter (routes Rt) t)) hp)) !! router E
                 = Some Rt') by (simpl; apply lookup_insert_eq).
  split.
  - rewrite (URI_run e h hn ps _ E Rt' HE' HRt' Hn). f_equal.
    subst Rt'. simpl.
    rewrite (reverseRoute_first (routes Rt) (mkRoute method full hn) [] hn ps Hnone eq_refl).
    simpl. rewrite Hpath.
    apply (fillPath_filled pieces tail ps [] _ Hpl Hps). lia.
  - unfold Routes. unfold sbind at 1. rewrite (loadEcho_Some _ _ _ HE').
    unfold sbind at 1. rewrite (loadRouter_Some _ _ _ HRt'). reflexivity.
Qed.

End Reversing.

Section Methods.
Context {K : Collaborators}.

Lemma addEach_routes e path h hf hn E (ms : list string) :
  wrapHandler h = Done hf -> funcName h = Done hn ->
  (forall m t, In m ms ->
     exists t', Router_Add m (path_Join [prefix E; "/"; path]) hf e t = Done t') ->
  forall hp Rt,
  echos hp !! e = Some E -> routers hp !! router E = Some Rt ->
  exists hp' t',
    addEach e ms path h hp = Built tt hp' /\
    routers hp' !! router E =
      Some (mkRouter (routes Rt ++
                      map (fun m => mkRoute m (path_Join [prefix E; "/"; path]) hn) ms)%list t') /\
    echos hp' = echos hp /\ arrays hp' = arrays hp /\
    (forall r, r <> router E -> routers hp' !! r = routers hp !! r).
Proof.
  intros Hh Hn. induction ms as [|m ms IH]; intros Hacc hp Rt HE HRt.
  - exists hp, (tree Rt). simpl. rewrite app_nil_r.
    split; [reflexivity|]. split; [now destruct Rt|]. auto.
  - destruct (Hacc m (tree Rt) (or_introl eq_refl)) as [t Ht].
    pose proof (add_run e m path h hf hp E Rt HE HRt Hh) as Hrun.
    simpl in Hrun. rewrite Ht, Hn in Hrun.
    set (full := path_Join [prefix E; "/"; path]) in *.
    set (hp1 := setRouters (insert (router E)
                   (mkRouter (routes Rt ++ [mkRoute m full hn])%list t))
                   (setRouters (insert (router E) (mkRouter (routes Rt) t)) hp)) in *.
    destruct (IH (fun m' t' Hin => Hacc m' t' (or_intror Hin)) hp1
                 (mkRouter (routes Rt ++ [mkRoute m full hn])%list t))
      as (hp' & t' & Hrest & HRt' & He' & Ha' & Hother).
    { exact HE. }
    { subst hp1. simpl. apply lookup_insert_eq. }
    exists hp', t'. split.
    { simpl. unfold sbind. now rewrite Hrun. }
    split.
    { rewrite HRt'. simpl. now rewrite <- app_assoc. }
    split; [rewrite He'; reflexivity|]. split; [rewrite Ha'; reflexivity|].
    intros r Hr. rewrite (Hother r Hr). subst hp1. simpl.
    now rewrite !lookup_insert_ne by congruence.
Qed.

(** X4. [Any] registers the handler once for each of the nine methods
    CONNECT, DELETE, GET, HEAD, OPTIONS, PATCH, POST, PUT and TRACE, in
    that order and under the same path; the Echo structs and the backing
    arrays of the store are untouched. *)
Theorem Any_registers_every_method e path h hf hn hp E Rt :
  echos hp !! e = Some E -> routers hp !! router E = Some Rt ->
  wrapHandler h = Done hf -> funcName h = Done hn ->
  (forall m t, In m methods ->
     exists t', Router_Add m (path_Join [prefix E; "/"; path]) hf e t = Done t') ->
  exists hp' Rt',
    Any e path h hp = Built tt hp' /\
    routers hp' !! router E = Some Rt' /\
    routes Rt' =
      (routes Rt ++
       map (fun m => mkRoute m (path_Join [prefix E; "/"; path]) hn)
           ["CONNECT"; "DELETE"; "GET"; "HEAD"; "OPTIONS"; "PATCH"; "POST"; "PUT"; "TRACE"])%list /\
    echos hp' = echos hp /\ arrays hp' = arrays hp.
Proof.
  intros HE HRt Hh Hn Hacc.
  destruct (addEach_routes e path h hf hn E methods Hh Hn Hacc hp Rt HE HRt)
    as (hp' & t' & Hrun & HRt' & He & Ha & _).
  exists hp', (mkRouter (routes Rt ++
     map (fun m => mkRoute m (path_Join [prefix E; "/"; path]) hn) methods)%list t').
  split; [exact Hrun|]. split; [exact HRt'|]. split; [reflexivity|]. auto.
Qed.

(** X5. [Match] registers the handler for each of the methods given, in
    the order given; without any method it registers it for GET alone, and
    is then the same call as [Get]. *)
Theorem Match_defaults_to_GET e path h hf hn (ms : list string) hp E Rt :
  echos hp !! e = Some E -> routers hp !! router E = Some Rt ->
  wrapHandler h = Done hf -> funcName h = Done hn ->
  (forall m t, exists t', Router_Add m (path_Join [prefix E; "/"; path]) hf e t = Done t') ->
  exists hp' Rt',
    Match e path h ms hp = Built tt hp' /\
    routers hp' !! router E = Some Rt' /\
    routes Rt' =
      (routes Rt ++
       map (fun m => mkRoute m (path_Join [prefix E; "/"; path]) hn)
           (match ms with [] => ["GET"] | _ => ms end))%list /\
    (ms = [] -> Match e path h ms hp = Get e path h hp).
Proof.
  intros HE HRt Hh Hn Hacc.
  assert (Hms : (if Nat.eqb (length ms) 0 then (ms ++ [GET])%list else ms)
                = match ms with [] => ["GET"] | _ => ms end)
    by (destruct ms; reflexivity).
  destruct (addEach_routes e path h hf hn E
              (match ms with [] => ["GET"] | _ => ms end) Hh Hn
              (fun m t _ => Hacc m t) hp Rt HE HRt)
    as (hp' & t' & Hrun & HRt' & _).
  eexists hp', _. unfold Match. rewrite Hms.
  split; [exact Hrun|]. split; [exact HRt'|]. split; [reflexivity|].
  intros ->. simpl. unfold Get, sbind, GET.
  destruct (add e "GET" path h hp) as [[] hp2|v hp2]; reflexivity.
Qed.

End Methods.

Section Building.
Context {K : Collaborators}.

(** X6. [New] returns a new, non-nil Echo at an address nothing was stored
    at, with a new router that has no route: empty prefix, no middleware,
    debug off, no hook, and its own default error handler as the error
    handler in force. Every other Echo, every other router and every
    backing array of the store is as before. *)
Theorem New_builds_a_fresh_Echo (hp : Heap) :
  exists e rt hp',
    New hp = Built e hp' /\
    e <> nil /\ echos hp !! e = None /\ routers hp !! rt = None /\
    echos hp' !! e =
      Some (mkEcho EmptyString nilSlice (closureOfNew e) (closureOfNew e) e false None rt) /\
    routers hp' !! rt = Some (mkRouter [] (NewTree e)) /\
    middlewareOf hp' e = Some [] /\
    (forall e2, e2 <> e -> echos hp' !! e2 = echos hp !! e2) /\
    (forall r2, r2 <> rt -> routers hp' !! r2 = routers hp !! r2) /\
    arrays hp' = arrays hp.
Proof.
  destruct (freshLoc_fresh (dom (echos hp))) as [He Hen].
  destruct (freshLoc_fresh (dom (routers hp))) as [Hr Hrn].
  exists (freshLoc (dom (echos hp))), (freshLoc (dom (routers hp))).
  set (e := freshLoc (dom (echos hp))) in *.
  set (rt := freshLoc (dom (routers hp))) in *.
  unfold New. unfold sbind at 1, sget. fold e rt.
  unfold sbind at 1, smodify. unfold sbind at 1.
  unfold sbind at 1. erewrite loadEcho_Some by (simpl; apply lookup_insert_eq).
  unfold sbind at 1. erewrite storeEcho_Some by (simpl; apply lookup_insert_eq).
  unfold sbind at 1. erewrite loadEcho_Some by (simpl; apply lookup_insert_eq).
  unfold sbind at 1. erewrite storeEcho_Some by (simpl; apply lookup_insert_eq).
  unfold sbind at 1. erewrite loadEcho_Some by (simpl; apply lookup_insert_eq).
  unfold sbind at 1, SetHTTPErrorHandler, sbind at 1.
  erewrite loadEcho_Some by (simpl; apply lookup_insert_eq).
  erewrite storeEcho_Some by (simpl; apply lookup_insert_eq).
  eexists. split; [reflexivity|].
  split; [exact Hen|].
  split; [now apply not_elem_of_dom|].
  split; [now apply not_elem_of_dom|].
  split; [simpl; apply lookup_insert_eq|].
  split; [simpl; apply lookup_insert_eq|].
  split; [unfold middlewareOf; simpl; rewrite lookup_insert_eq; reflexivity|].
  split; [intros e2 Hne; simpl; now rewrite !lookup_insert_ne by congruence|].
  split; [intros r2 Hne; simpl; now rewrite lookup_insert_ne by congruence|].
  reflexivity.
Qed.

(** X7. [Use] of a list of middleware is [Use] of its front part followed
    by [Use] of the rest on the store that leaves; if the front part
    panics, so does the whole, with the same value and store. *)
Theorem Use_twice_is_Use_once e (ms1 ms2 : list Middleware) (hp : Heap) :
  Use e (ms1 ++ ms2) hp =
  match Use e ms1 hp with
  | Built _ hp1 => Use e ms2 hp1
  | Aborted v hp1 => Aborted v hp1
  end.
Proof. rewrite Use_app. reflexivity. Qed.

(** Registration never moves a router when it only deals with
    middleware. *)
Lemma sbind_routers {A B} (m : Setup A) (k : A -> Setup B) hp :
  routers (heapAfter (m hp)) = routers hp ->
  (forall a hp1, routers (heapAfter (k a hp1)) = routers hp1) ->
  routers (heapAfter (sbind m k hp)) = routers hp.
Proof.
  intros Hm Hk. unfold sbind. destruct (m hp) as [a hp1|v hp1]; simpl in *.
  - now rewrite Hk.
  - exact Hm.
Qed.

Lemma loadEcho_routers e hp : routers (heapAfter (loadEcho e hp)) = routers hp.
Proof. unfold loadEcho, sbind, sget, sderef. now destruct (echos hp !! e). Qed.

Lemma storeEcho_routers e E hp : routers (heapAfter (storeEcho e E hp)) = routers hp.
Proof.
  unfold storeEcho. apply sbind_routers; [apply loadEcho_routers | reflexivity].
Qed.

Lemma append_routers s f hp : routers (heapAfter (append s f hp)) = routers hp.
Proof.
  unfold append, sbind, sget.
  destruct (len s <? cap s)%nat; [|reflexivity].
  unfold sderef. now destruct (arrays hp !! array s).
Qed.

Lemma Use_routers e ms : forall hp, routers (heapAfter (Use e ms hp)) = routers hp.
Proof.
  induction ms as [|m ms IH]; intros hp; [reflexivity|]. simpl.
  apply sbind_routers; [apply loadEcho_routers|]. intros E hp1.
  apply sbind_routers; [unfold try; now destruct (wrapMiddleware m)|]. intros f hp2.
  apply sbind_routers; [apply append_routers|]. intros s hp3.
  apply sbind_routers; [apply loadEcho_routers|]. intros E' hp4.
  apply sbind_routers; [apply storeEcho_routers|]. intros _ hp5.
  apply IH.
Qed.

Lemma Group_routers e pfx ms hp : routers (heapAfter (Group e pfx ms hp)) = routers hp.
Proof.
  unfold Group.
  apply sbind_routers; [apply loadEcho_routers|]. intros E hp1.
  apply sbind_routers; [reflexivity|]. intros hp' hp2.
  apply sbind_routers; [reflexivity|]. intros _ hp3.
  apply sbind_routers; [apply loadEcho_routers|]. intros G hp4.
  apply sbind_routers; [apply storeEcho_routers|]. intros _ hp5.
  apply sbind_routers; [apply loadEcho_routers|]. intros G1 hp6.
  apply sbind_routers; [reflexivity|]. intros mw hp7.
  apply sbind_routers; [apply loadEcho_routers|]. intros G2 hp8.
  apply sbind_routers.
  { unfold copy, sbind, sget. now destruct (0 <? _)%nat. }
  intros _ hp9.
  apply sbind_routers; [apply loadEcho_routers|]. intros G3 hp10.
  apply sbind_routers; [apply storeEcho_routers|]. intros _ hp11.
  apply sbind_routers; [apply Use_routers|]. intros _ hp12.
  reflexivity.
Qed.

(** X8. A route added to a group is registered in the router of the
    parent. After [Group] and [add] on the group, the group is another Echo
    than the parent, [Routes] of the parent ends with the new route under
    the path joined from the prefix of the parent, the prefix of the group
    and the path, [Routes] of the group is the same list, the middleware of
    the parent is unchanged and the group has the middleware of the parent
    followed by its own. *)
Theorem route_of_a_group_lands_in_the_parent_router
    e pfx ms fs method path h hf hn hp E Rt fs0 :
  wrapped ms fs ->
  echos hp !! e = Some E -> routers hp !! router E = Some Rt ->
  wfSlice hp (middleware E) -> holds hp (middleware E) fs0 ->
  wrapHandler h = Done hf -> funcName h = Done hn ->
  (forall g, exists t,
     Router_Add method (path_Join [path_Join ["/"; prefix E; pfx]; "/"; path]) hf g (tree Rt)
     = Done t) ->
  exists g hp1 hp2,
    Group e pfx ms hp = Built g hp1 /\
    add g method path h hp1 = Built tt hp2 /\
    g <> e /\
    Routes e hp2 =
      Built (routes Rt ++
             [mkRoute method (path_Join [path_Join ["/"; prefix E; pfx]; "/"; path]) hn])%list
            hp2 /\
    Routes g hp2 = Routes e hp2 /\
    middlewareOf hp2 e = middlewareOf hp e /\
    middlewareOf hp2 g = Some (map Some (fs0 ++ fs)).
Proof.
  intros Hms HE HRt Hwf Hh Hwrap Hn Hadd.
  destruct (Group_spec e pfx ms fs hp E fs0 Hms HE Hwf Hh)
    as (g & hp1 & s1 & HG & Hge & HGg & HE1 & Hwf1 & Hh1 & Hap1 & Harr1).
  pose proof (Group_routers e pfx ms hp) as Hr. rewrite HG in Hr. simpl in Hr.
  set (G := setMiddleware s1 (setPrefix (path_Join ["/"; prefix E; pfx]) E)) in *.
  assert (HRt1 : routers hp1 !! router G = Some Rt) by (rewrite Hr; exact HRt).
  pose proof (add_run g method path h hf hp1 G Rt HGg HRt1 Hwrap) as Hrun.
  destruct (Hadd g) as [t Ht].
  simpl in Hrun. rewrite Ht, Hn in Hrun.
  set (full := path_Join [path_Join ["/"; prefix E; pfx]; "/"; path]) in *.
  eexists g, hp1, _. split; [exact HG|]. split; [exact Hrun|]. split; [exact Hge|].
  assert (Hroutes : forall x X, echos hp1 !! x = Some X -> router X = router E ->
    Routes x (setRouters (insert (router E)
                (mkRouter (routes Rt ++ [mkRoute method full hn])%list t))
                (setRouters (insert (router E) (mkRouter (routes Rt) t)) hp1))
    = Built (routes Rt ++ [mkRoute method full hn])%list
            (setRouters (insert (router E)
                (mkRouter (routes Rt ++ [mkRoute method full hn])%list t))
                (setRouters (insert (router E) (mkRouter (routes Rt) t)) hp1))).
  { intros x X HX HrX. unfold Routes.
    unfold sbind at 1. erewrite loadEcho_Some by (simpl; exact HX).
    unfold sbind at 1. erewrite loadRouter_Some
      by (simpl; rewrite HrX; apply lookup_insert_eq).
    reflexivity. }
  split; [apply (Hroutes e E HE1 eq_refl)|].
  split; [rewrite (Hroutes e E HE1 eq_refl); apply (Hroutes g G HGg eq_refl)|].
  split.
  - assert (Hp1 : holds hp1 (middleware E) fs0) by (eapply holds_frame; eauto).
    unfold middlewareOf. simpl. rewrite HE1, HE.
    f_equal. unfold elems. simpl. now rewrite Harr1.
  - unfold middlewareOf. simpl. rewrite HGg. f_equal. apply Hh1.
Qed.

End Building.

(** ** Paths and trailing slashes *)

Lemma TrimRight_slashes (n : nat) : TrimRight (slashes n) "/" = EmptyString.
Proof. induction n as [|n IH]; simpl; [reflexivity|]. now rewrite IH. Qed.

Lemma TrimRight_unchanged (s : string) :
  lastByte s <> Some "/"%char -> TrimRight s "/" = s.
Proof.
  induction s as [|a t IH]; intros Hl; [reflexivity|]. simpl.
  destruct t as [|b t'].
  - simpl. rewrite inCutset_slash.
    destruct (Ascii.eqb a "/"%char) eqn:Ha; [|reflexivity].
    apply Ascii.eqb_eq in Ha. subst a. now elim Hl.
  - rewrite IH by exact Hl. reflexivity.
Qed.

Lemma TrimRight_app_slashes (s : string) (n : nat) :
  TrimRight (s ++ slashes n) "/" = TrimRight s "/".
Proof.
  induction s as [|a t IH].
  - simpl. apply TrimRight_slashes.
  - change (String a t ++ slashes n) with (String a (t ++ slashes n)).
    simpl. now rewrite IH.
Qed.

(** X9. [normalizePath] takes every trailing slash away: a non-empty path
    that does not end in a slash, followed by any number of slashes, is
    normalised to that path. A path of slashes only becomes the empty path,
    except for the single slash, which is kept. Normalising twice is
    normalising once. *)
Theorem trailing_slashes_do_not_matter (p : string) (n : nat) :
  (p <> EmptyString -> lastByte p <> Some "/"%char ->
   normalizePath (p ++ slashes n) = p) /\
  normalizePath (slashes n) = (if Nat.eqb n 1 then "/" else EmptyString) /\
  normalizePath (normalizePath p) = normalizePath p.
Proof.
  split; [|split].
  - intros Hne Hl.
    assert (Hroot : p ++ slashes n <> "/").
    { destruct p as [|a [|b t]]; [congruence| |].
      - destruct n; simpl; [|discriminate]. intros H. injection H as ->. now elim Hl.
      - discriminate. }
    rewrite (normalizePath_other _ Hroot), TrimRight_app_slashes.
    now apply TrimRight_unchanged.
  - destruct n as [|[|n]]; [reflexivity | reflexivity |].
    rewrite normalizePath_other by discriminate.
    apply TrimRight_slashes.
  - destruct (String.eqb p "/") eqn:Hp.
    + apply String.eqb_eq in Hp. now subst p.
    + apply String.eqb_neq in Hp. rewrite (normalizePath_other _ Hp).
      destruct (TrimRight_slash_spec p) as [Hl _].
      assert (Hq : TrimRight p "/" <> "/") by (intros Heq; rewrite Heq in Hl; now elim Hl).
      rewrite (normalizePath_other _ Hq). now apply TrimRight_unchanged.
Qed.

Section Answering.
Context {K : Collaborators}.


(** X10. An error returned by the chain reaches the client through the
    default error handler: when the response is not yet committed,
    [ServeHTTP] returns normally, the status and the message of the error
    (with a newline) are what is sent after what the chain had sent, the
    error is logged, the response is committed with that status and the
    context is back at the head of the pool of the resolved Echo. *)
Theorem chain_error_reaches_the_client
    hp e w r w0 j0 c h e' w1 E' fs err w2 e0 E0 C :
  lookup hp e w r w0 = (j0, Returns (c, h, e') w1) ->
  echos hp !! e' = Some E' ->
  holds hp (middleware E') fs ->
  composed fs h c w1 = Returns (Some err) w2 ->
  httpErrorHandler E' = closureOfNew e0 ->
  echos hp !! e0 = Some E0 ->
  ctxs w2 !! c = Some C ->
  committed (response C) = false ->
  exists w3,
    snd (ServeHTTP hp e w r w0) = Returns tt w3 /\
    sent w3 = (sent w2 ++
               [WHeader (writer (response C)) (specStatus err);
                WBody (writer (response C)) (specMessage (debug E0) err ++ newline)])%list /\
    logged w3 = (logged w2 ++ [err])%list /\
    ctxs w3 !! c = Some (commit (specStatus err) C) /\
    pools w3 !! e' = Some (c :: default [] (pools w2 !! e')).
Proof.
  intros Hl HE H Hh Hdef HE0 HC Hc.
  rewrite (ServeHTTP_run hp e w r w0 j0 c h e' w1 E' fs Hl HE H).
  rewrite (execute_run hp e' E' c _ w1 HE), Hh, Hdef. simpl callErrorHandler.
  rewrite (defaultHandler_run hp e0 E0 err c C w2 HE0 HC), Hc.
  eexists. split; [reflexivity|]. simpl.
  split; [now rewrite <- app_assoc|]. split; [reflexivity|].
  split; [apply lookup_insert_eq|]. apply lookup_insert_eq.
Qed.


Lemma neverPuts_app j1 j2 : neverPuts j1 -> neverPuts j2 -> neverPuts (j1 ++ j2).
Proof. unfold neverPuts. intros. now apply Forall_app. Qed.

Lemma tbind_neverPuts {A B} (m : Traced A) (k : A -> Traced B) w :
  (forall w, neverPuts (fst (m w))) ->
  (forall a w, neverPuts (fst (k a w))) ->
  neverPuts (fst (tbind m k w)).
Proof.
  intros Hm Hk. unfold tbind. specialize (Hm w).
  destruct (m w) as [j0 [a w'|v w']]; simpl in *; [|exact Hm].
  specialize (Hk a w'). destruct (k a w') as [j1 o]; simpl in *.
  now apply neverPuts_app.
Qed.

Lemma lookup_neverPuts hp e w r w0 : neverPuts (fst (lookup hp e w r w0)).
Proof.
  unfold lookup.
  repeat first
    [ apply tbind_neverPuts; [intros ? | intros ? ?]
    | match goal with
      | |- context [match ?x with _ => _ end] => destruct x
      | |- context [if ?x then _ else _] => destruct x
      end
    | solve [unfold neverPuts, lift, calling, tret; simpl; repeat constructor] ].
Qed.

(** X12. [ServeHTTP] has no recover and no deferred Put: when the chain
    panics, or the error handler does, the panic leaves [ServeHTTP] with
    the same value and the journal has no [pool.Put], so the context of
    that request is not handed back to the pool. *)
Theorem a_panic_keeps_the_context_out_of_the_pool
    hp e w r w0 j0 c h e' w1 E' fs v w2 :
  lookup hp e w r w0 = (j0, Returns (c, h, e') w1) ->
  echos hp !! e' = Some E' ->
  holds hp (middleware E') fs ->
  (composed fs h c w1 = Panics v w2 \/
   exists err wc, composed fs h c w1 = Returns (Some err) wc /\
                  callErrorHandler hp (httpErrorHandler E') err c wc = Panics v w2) ->
  snd (ServeHTTP hp e w r w0) = Panics v w2 /\
  neverPuts (fst (ServeHTTP hp e w r w0)).
Proof.
  intros Hl HE H Hp.
  rewrite (ServeHTTP_run hp e w r w0 j0 c h e' w1 E' fs Hl HE H).
  rewrite (execute_run hp e' E' c _ w1 HE).
  pose proof (lookup_neverPuts hp e w r w0) as Hq. rewrite Hl in Hq. simpl in Hq.
  destruct Hp as [Hp|(err & wc & Hp & Heh)]; rewrite Hp; [|rewrite Heh]; simpl;
    (split; [reflexivity|]); apply neverPuts_app; try exact Hq;
    unfold neverPuts; repeat constructor.
Qed.

(** X13. [SetDebug] sets the debug flag of the Echo and nothing else in
    it, and the default error handler reads the flag when it runs: for a
    plain error on an uncommitted response the client is sent status 500
    with the text of the error when debug is on, and with Internal Server
    Error when it is off. *)
Theorem SetDebug_reaches_the_default_handler e (on : bool) hp E :
  echos hp !! e = Some E ->
  exists hp',
    SetDebug e on hp = Built tt hp' /\
    echos hp' !! e = Some (setDebugField on E) /\
    forall (t : string) c C w,
      ctxs w !! c = Some C -> committed (response C) = false ->
      exists w',
        defaultHandler hp' e (PlainErr t) c w = Returns tt w' /\
        sent w' = (sent w ++
                   [WHeader (writer (response C)) 500;
                    WBody (writer (response C))
                          ((if on then t else "Internal Server Error") ++ newline)])%list.
Proof.
  intros HE. eexists. split.
  { unfold SetDebug, sbind at 1. rewrite (loadEcho_Some _ _ _ HE).
    now rewrite (storeEcho_Some _ _ _ _ HE). }
  split; [simpl; apply lookup_insert_eq|].
  intros t c C w HC Hc. eexists. split.
  { erewrite defaultHandler_run; [|simpl; apply lookup_insert_eq | exact HC].
    rewrite Hc. reflexivity. }
  simpl. rewrite <- app_assoc. simpl. now destruct on.
Qed.

(** X14. After [SetHTTPErrorHandler] with a handler of the caller, an
    error of the chain goes to that handler and to nothing else:
    [ServeHTTP] ends as the handler does, and puts the context back when
    it returns. The middleware is unchanged, and [DefaultHTTPErrorHandler]
    still runs the handler [New] built. *)
Theorem custom_error_handler_replaces_the_default
    e' (f : error -> loc -> Go unit) hp E' fs :
  echos hp !! e' = Some E' ->
  holds hp (middleware E') fs ->
  exists hp',
    SetHTTPErrorHandler e' (customHandler f) hp = Built tt hp' /\
    middlewareOf hp' e' = middlewareOf hp e' /\
    (forall err c w,
       DefaultHTTPErrorHandler hp' e' err c w =
       callErrorHandler hp' (defaultHTTPErrorHandler E') err c w) /\
    (forall e w r w0 j0 c h w1 err w2,
       lookup hp' e w r w0 = (j0, Returns (c, h, e') w1) ->
       composed fs h c w1 = Returns (Some err) w2 ->
       snd (ServeHTTP hp' e w r w0) =
       match f err c w2 with
       | Returns _ w3 => Returns tt (put e' c w3)
       | Panics v w3 => Panics v w3
       end).
Proof.
  intros HE H. eexists. split.
  { unfold SetHTTPErrorHandler, sbind at 1. rewrite (loadEcho_Some _ _ _ HE).
    now rewrite (storeEcho_Some _ _ _ _ HE). }
  set (hp' := setEchos (insert e' (setHTTPErrorHandlerField (customHandler f) E')) hp).
  assert (HE' : echos hp' !! e' = Some (setHTTPErrorHandlerField (customHandler f) E'))
    by (subst hp'; simpl; apply lookup_insert_eq).
  split; [unfold middlewareOf; rewrite HE', HE; reflexivity|].
  split.
  { intros err c w. unfold DefaultHTTPErrorHandler, bind, deref. rewrite HE'. reflexivity. }
  intros e w r w0 j0 c h w1 err w2 Hl Hh.
  rewrite (ServeHTTP_run hp' e w r w0 j0 c h e' w1 _ fs Hl HE' H).
  rewrite (execute_run hp' e' _ c _ w1 HE'), Hh. simpl.
  destruct (f err c w2) as [[] w3|v w3]; reflexivity.
Qed.

End Answering.

Section Adapting.
Context {K : Collaborators}.

Lemma setWriterRequest_same C :
  setWriterRequest (writer (response C)) (request C) C = C.
Proof. destruct C as [rq [wr st cm] pn pv ec]. reflexivity. Qed.

(** X15. Middleware of the shape [func(http.Handler) http.Handler] is
    accepted by [wrapMiddleware], and the writer and request that it passes
    to its successor are stored in the context before the next handler
    runs; the result of the next handler is the result of the wrapped
    middleware. *)
Theorem http_middleware_rebinds_the_context
    (pre : ResponseWriter -> loc -> Go (ResponseWriter * loc))
    (h : HandlerFunc) c C w wr' rq' wa Ca res wb :
  ctxs w !! c = Some C ->
  pre (writer (response C)) (request C)
      (setCells (insert (fresh (dom (cells w))) None) w) = Returns (wr', rq') wa ->
  ctxs wa !! c = Some Ca ->
  h c (setCtxs (insert c (setWriterRequest wr' rq' Ca)) wa) = Returns res wb ->
  wrapMiddleware
    (M_funcHTTPHandler (fun next wr rq => x <- pre wr rq ;; next (fst x) (snd x)))
  = Done (wrapHTTPMiddleware (fun next wr rq => x <- pre wr rq ;; next (fst x) (snd x))) /\
  wrapHTTPMiddleware (fun next wr rq => x <- pre wr rq ;; next (fst x) (snd x)) h c w
  = Returns res (setCells (insert (fresh (dom (cells w))) res) wb).
Proof.
  intros HC Hpre HCa Hh. split; [reflexivity|].
  unfold wrapHTTPMiddleware.
  unfold bind at 1, get. unfold bind at 1, modify.
  unfold bind at 1. erewrite loadCtx_Some by exact HC.
  unfold bind at 1. unfold bind at 1. rewrite Hpre. simpl fst; simpl snd.
  unfold bind at 1. rewrite (loadCtx_Some c Ca _ HCa).
  unfold bind at 1. rewrite (storeCtx_Some c Ca _ _ HCa).
  unfold bind at 1. rewrite Hh. unfold modify.
  unfold bind, get, deref. simpl. rewrite lookup_insert_eq. reflexivity.
Qed.

(** X16. Middleware of the shape [func(http.Handler) http.Handler] that
    answers by itself and never calls its successor ends the chain: the
    next handler does not run and the result is nil, in the world the
    middleware left. *)
Theorem http_middleware_that_answers_itself_ends_the_chain
    (answer : HTTPHandlerFunc) (h : HandlerFunc) c C w w' :
  ctxs w !! c = Some C ->
  answer (writer (response C)) (request C)
         (setCells (insert (fresh (dom (cells w))) None) w) = Returns tt w' ->
  cells w' !! fresh (dom (cells w)) = Some None ->
  wrapHTTPMiddleware (fun _ => answer) h c w = Returns None w'.
Proof.
  intros HC Hans Hcell. unfold wrapHTTPMiddleware.
  unfold bind at 1, get. unfold bind at 1, modify.
  unfold bind at 1. erewrite loadCtx_Some by exact HC.
  unfold bind at 1. rewrite Hans.
  unfold bind, get, deref. now rewrite Hcell.
Qed.

(** X17. Middleware made from a net/http handler function (or from an
    [http.Handler]) is skipped once the response is committed: on a
    committed response a chain of such middleware around a handler is the
    handler alone. *)
Theorem committed_response_skips_http_middleware
    (ms : list HTTPHandlerFunc) (h : HandlerFunc) c C w :
  ctxs w !! c = Some C ->
  committed (response C) = true ->
  Forall2 (fun m f => wrapMiddleware (M_funcHTTP m) = Done f /\
                      wrapMiddleware (M_HTTPHandler m) = Done f)
          ms (map wrapHTTPHandlerFuncMW ms) /\
  composed (map wrapHTTPHandlerFuncMW ms) h c w = h c w.
Proof.
  intros HC Hc. split.
  - induction ms as [|m ms IH]; simpl; constructor; [split; reflexivity | exact IH].
  - induction ms as [|m ms IH]; [reflexivity|]. simpl.
    unfold wrapHTTPHandlerFuncMW at 1.
    unfold bind at 1. rewrite (loadCtx_Some c C _ HC), Hc. simpl.
    exact IH.
Qed.


End Adapting.

(** ** Binding *)

Lemma prefix_append (p s : string) : String.prefix p (p ++ s) = true.
Proof.
  induction p as [|a p IH]; [now destruct s|].
  change (String a p ++ s) with (String a (p ++ s)). simpl.
  destruct (ascii_dec a a); [exact IH | congruence].
Qed.

(** X19. [Bind] goes by the prefix of the content type: whatever follows
    [application/json] (a charset, say) the JSON decoder decides, whatever
    follows [application/xml] the XML decoder; a content type with neither
    prefix, the empty one and the form types among them, gives
    [UnsupportedMediaType] without touching the world. *)
Theorem Bind_goes_by_the_prefix_of_the_content_type
    (decodeJSON decodeXML : Go (option error)) (rest ct : string) (w : World) :
  Bind (ApplicationJSON ++ rest) decodeJSON decodeXML = decodeJSON /\
  Bind (ApplicationXML ++ rest) decodeJSON decodeXML = decodeXML /\
  Bind ApplicationJSONCharsetUTF8 decodeJSON decodeXML = decodeJSON /\
  Bind ApplicationXMLCharsetUTF8 decodeJSON decodeXML = decodeXML /\
  (HasPrefix ct ApplicationJSON = false -> HasPrefix ct ApplicationXML = false ->
   Bind ct decodeJSON decodeXML w = Returns (Some UnsupportedMediaType) w) /\
  Forall (fun ct => Bind ct decodeJSON decodeXML w = Returns (Some UnsupportedMediaType) w)
         [EmptyString; ApplicationForm; MultipartForm; TextPlain; TextHTML;
          ApplicationJavaScript].
Proof.
  assert (HJ : forall s, Bind (ApplicationJSON ++ s) decodeJSON decodeXML = decodeJSON).
  { intros s. unfold Bind, HasPrefix. now rewrite prefix_append. }
  assert (HX : forall s, Bind (ApplicationXML ++ s) decodeJSON decodeXML = decodeXML).
  { intros s. unfold Bind, HasPrefix. rewrite (prefix_append ApplicationXML s).
    reflexivity. }
  split; [apply HJ|]. split; [apply HX|]. split; [apply HJ|]. split; [apply HX|].
  split.
  - intros H1 H2. unfold Bind. now rewrite H1, H2.
  - repeat constructor.
Qed.

(** ** The blacklist of [ServeFile] *)

Lemma Blackfile_spec (ext : list string) :
  forall (bf : gmap string bool) (v : string),
    Blackfile ext bf !! v = if decide (v ∈ ext) then Some true else bf !! v.
Proof.
  induction ext as [|x ext IH]; intros bf v.
  - destruct (decide (v ∈ [])) as [Hin|_]; [|reflexivity].
    now apply not_elem_of_nil in Hin.
  - change (Blackfile (x :: ext) bf) with (Blackfile ext (<[x := true]> bf)).
    rewrite IH.
    destruct (decide (v ∈ ext)) as [Hin|Hnin];
      destruct (decide (v ∈ x :: ext)) as [Hin'|Hnin']; try reflexivity.
    + exfalso. apply Hnin'. apply elem_of_cons. now right.
    + apply elem_of_cons in Hin' as [->|Hin']; [apply lookup_insert_eq | contradiction].
    + apply lookup_insert_ne. intros ->. apply Hnin'. apply elem_of_cons. now left.
Qed.

(** X20. [Blackfile] only adds: every extension given is on the list
    afterwards, what was on the list stays, any other extension reads as
    before, and giving the same extensions again changes nothing. The list
    [New] starts with holds [.html] and nothing else. *)
Theorem Blackfile_only_adds (ext : list string) (bf : gmap string bool) (v : string) :
  (v ∈ ext -> blacklisted (Blackfile ext bf) v = true) /\
  (blacklisted bf v = true -> blacklisted (Blackfile ext bf) v = true) /\
  (v ∉ ext -> blacklisted (Blackfile ext bf) v = blacklisted bf v) /\
  Blackfile ext (Blackfile ext bf) = Blackfile ext bf /\
  blacklisted newBlackfile v = String.eqb v ".html".
Proof.
  unfold blacklisted. repeat split.
  - intros Hin. rewrite Blackfile_spec, decide_True by exact Hin. reflexivity.
  - intros Hb. rewrite Blackfile_spec. now destruct (decide (v ∈ ext)).
  - intros Hnin. rewrite Blackfile_spec, decide_False by exact Hnin. reflexivity.
  - apply map_eq. intros k. rewrite !Blackfile_spec. now destruct (decide (k ∈ ext)).
  - unfold newBlackfile. destruct (String.eqb v ".html") eqn:Hv.
    + apply String.eqb_eq in Hv. subst v. now rewrite lookup_singleton_eq.
    + apply String.eqb_neq in Hv. now rewrite lookup_singleton_ne by congruence.
Qed.

Lemma hasDotOrSlash_append (s t : string) :
  hasDotOrSlash (s ++ t) = hasDotOrSlash s || hasDotOrSlash t.
Proof.
  induction s as [|a s IH]; [reflexivity|].
  change (String a s ++ t) with (String a (s ++ t)). simpl.
  rewrite IH. now rewrite !orb_assoc.
Qed.

Lemma Ext_suffix (stem x : string) :
  hasDotOrSlash x = false ->
  Ext (stem ++ String "."%char x) = String "."%char x.
Proof.
  intros Hx. induction stem as [|a stem IH].
  - simpl. now rewrite Hx.
  - change (String a stem ++ String "."%char x)
      with (String a (stem ++ String "."%char x)).
    simpl. rewrite hasDotOrSlash_append. simpl. rewrite orb_true_r. exact IH.
Qed.

Section Serving.
Context {F : FileServing}.

(** X21. The handler of [ServeFile] answers 404 Not Found for a file
    whose extension is on the blacklist, before the disk is looked at and
    without writing anything; with the blacklist of [New] that is every
    file ending in [.html]. The handler of [ServeDir] does not consult the
    blacklist. *)
Theorem ServeFile_refuses_blacklisted_extensions
    (bf : gmap string bool) (autoIndex : bool) (stem x : string) (c : loc) (w : World) :
  hasDotOrSlash x = false ->
  blacklisted bf (String "."%char x) = true ->
  serveFileHandler bf autoIndex (stem ++ String "."%char x) c w
  = Returns (Some (HTTPErr (mkHTTPError 404 "Not Found"))) w /\
  serveFileHandler newBlackfile autoIndex (stem ++ ".html") c w
  = Returns (Some (HTTPErr (mkHTTPError 404 "Not Found"))) w /\
  serveDirHandler autoIndex stem (String "."%char x) c w
  = serveFile autoIndex (Dir stem) (String "."%char x) c w.
Proof.
  intros Hx Hb. split; [|split].
  - unfold serveFileHandler. rewrite (Ext_suffix stem x Hx), Hb. reflexivity.
  - unfold serveFileHandler.
    rewrite (Ext_suffix stem "html" eq_refl). reflexivity.
  - reflexivity.
Qed.

(** X22. [serveFile] fails in these cases only: the file cannot be
    opened (404 Not Found), or it is a directory without an index page and
    either auto index is off (403 Forbidden) or reading the directory
    failed (that error); in each of them nothing was written. *)
Theorem serveFile_errors (autoIndex : bool) (fs : FileSystem) (file : string) (c : loc)
    (w w' : World) (err : error) :
  serveFile autoIndex fs file c w = Returns (Some err) w' ->
  (fs file = None /\ err = HTTPErr (mkHTTPError 404 "Not Found") /\ w' = w) \/
  (exists d, fs file = Some d /\ IsDir (Stat d) = true /\
             fs (filepath_Join [file; indexPage]) = None /\
             ((autoIndex = false /\ err = HTTPErr (mkHTTPError 403 "Forbidden") /\ w' = w) \/
              (autoIndex = true /\ Readdir d = inl err /\ w' = w))).
Proof.
  unfold serveFile. destruct (fs file) as [f|] eqn:Hf.
  - destruct (IsDir (Stat f)) eqn:Hd.
    + destruct (fs (filepath_Join [file; indexPage])) as [f'|] eqn:Hi.
      * unfold bind. destruct (ServeContent c (Name (Stat f')) f' w); discriminate.
      * destruct autoIndex.
        -- unfold listDir. destruct (Readdir f) as [e0|dirs] eqn:Hr.
           ++ intros H. injection H as <- <-. right. exists f. auto 10.
           ++ unfold bind.
              destruct (Response_Write c ("<pre>" ++ newline) w); [|discriminate].
              destruct (writeEntries dirs c _); [|discriminate].
              destruct (Response_Write c ("</pre>" ++ newline) _); discriminate.
        -- intros H. injection H as <- <-. right. exists f. auto 10.
    + unfold bind. destruct (ServeContent c (Name (Stat f)) f w); discriminate.
  - intros H. injection H as <- <-. left. auto.
Qed.

Lemma writeEntries_run (dirs : list FileInfo) c C :
  forall w, ctxs w !! c = Some C ->
  writeEntries dirs c w =
  Returns tt (setSent (fun l => l ++ map (fun d => WBody (writer (response C)) (entryLine d)) dirs)%list w).
Proof.
  induction dirs as [|d dirs IH]; intros w HC; simpl.
  - unfold ret. f_equal. destruct w; unfold setSent; simpl. now rewrite app_nil_r.
  - unfold bind. rewrite (Response_Write_run c C _ w HC).
    rewrite IH by exact HC. f_equal. unfold setSent; simpl.
    now rewrite <- app_assoc.
Qed.

Lemma bodies_app (l1 l2 : list wire) : bodies (l1 ++ l2) = (bodies l1 ++ bodies l2)%list.
Proof. unfold bodies. apply flat_map_app. Qed.

Lemma bodies_WBody (wr : ResponseWriter) (f : FileInfo -> string) (dirs : list FileInfo) :
  bodies (map (fun d => WBody wr (f d)) dirs) = map f dirs.
Proof. induction dirs as [|d dirs IH]; simpl; [reflexivity | now rewrite IH]. Qed.

(** X23. A directory without an index page: with auto index on,
    [serveFile] succeeds and the bodies written are the opening [pre]
    line, one line for each entry in the order [Readdir] gave them, and
    the closing [pre] line; with auto index off it is 403 Forbidden and
    nothing is written. *)
Theorem directory_without_index_page_is_listed
    (fs : FileSystem) (file : string) (d : File) (dirs : list FileInfo)
    (c : loc) (C : Context) (w : World) :
  fs file = Some d -> IsDir (Stat d) = true ->
  fs (filepath_Join [file; indexPage]) = None ->
  Readdir d = inr dirs ->
  ctxs w !! c = Some C ->
  exists w',
    serveFile true fs file c w = Returns None w' /\
    bodies (sent w') =
      (bodies (sent w) ++
       ("<pre>" ++ newline)%string :: map entryLine dirs ++
       [("</pre>" ++ newline)%string])%list /\
    serveFile false fs file c w = Returns (Some (HTTPErr (mkHTTPError 403 "Forbidden"))) w.
Proof.
  intros Hd Hdir Hidx Hrd HC. unfold serveFile. rewrite Hd, Hdir, Hidx.
  unfold listDir. rewrite Hrd.
  unfold bind at 1. rewrite (Response_Write_run c C _ w HC).
  unfold bind at 1. rewrite (writeEntries_run dirs c C) by exact HC.
  unfold bind at 1. erewrite Response_Write_run by exact HC.
  eexists. split; [reflexivity|]. split.
  - simpl. rewrite !bodies_app, bodies_WBody. simpl. rewrite <- !app_assoc. reflexivity.
  - reflexivity.
Qed.

End Serving.

Section Hooking.
Context {K : Collaborators}.

(** X24. [Hook] stores the hook and leaves the middleware alone, and
    [ServeHTTP] then calls the hook with the writer and the request before
    anything else: the journal of every request starts with that call, and
    when the hook panics it is the only call, with no context taken from
    the pool and no lookup. *)
Theorem Hook_runs_before_everything_else e (hk : HTTPHandlerFunc) hp E :
  echos hp !! e = Some E ->
  exists hp',
    Hook e hk hp = Built tt hp' /\
    middlewareOf hp' e = middlewareOf hp e /\
    forall w r w0,
      (exists j, fst (ServeHTTP hp' e w r w0) = CallHook w r :: j) /\
      (forall v w1, hk w r w0 = Panics v w1 ->
         ServeHTTP hp' e w r w0 = ([CallHook w r], Panics v w1)).
Proof.
  intros HE. eexists. split.
  { unfold Hook, sbind at 1. rewrite (loadEcho_Some _ _ _ HE).
    now rewrite (storeEcho_Some _ _ _ _ HE). }
  set (hp' := setEchos (insert e (setHookField (Some hk) E)) hp).
  assert (HE' : echos hp' !! e = Some (setHookField (Some hk) E))
    by (subst hp'; simpl; apply lookup_insert_eq).
  split; [unfold middlewareOf; rewrite HE', HE; reflexivity|].
  intros w r w0.
  assert (Hl : (exists j o, lookup hp' e w r w0 = (CallHook w r :: j, o)) /\
               (forall v w1, hk w r w0 = Panics v w1 ->
                  lookup hp' e w r w0 = ([CallHook w r], Panics v w1))).
  { unfold lookup.
    rewrite (tbind_step _ _ _ [] (setHookField (Some hk) E) w0)
      by (unfold lift, deref; now rewrite HE').
    simpl hook. cbv iota beta.
    match goal with
    | |- context [fst (tbind ?m ?k w0)] =>
        destruct (tbind_journal_prefix m k w0) as [j Hj];
        pose proof (tbind_stop m k w0) as Hstop
    end.
    split.
    - eexists _, _. rewrite Hj. unfold calling. simpl. reflexivity.
    - intros v w1 Hp.
      rewrite (Hstop [CallHook w r] v w1) by (unfold calling; now rewrite Hp).
      reflexivity. }
  destruct Hl as [(j & o & Hj) Hpanic].
  split.
  - rewrite ServeHTTP_phases.
    destruct (tbind_journal_prefix (lookup hp' e w r)
      (fun x => let '(c, h, e') := x in
                tbind (lift (compose hp' e' h)) (fun h' => execute hp' e' c h')) w0) as [j' Hj'].
    rewrite Hj', Hj. simpl. eauto.
  - intros v w1 Hp. rewrite ServeHTTP_phases.
    apply tbind_stop. now apply Hpanic.
Qed.

End Hooking.

(** ** More of the site at work *)

(** No route of the site belongs to a plain net/http function. *)
Lemma URI_of_unregistered_handler_witness :
  URI 1%nat (H_funcHTTP quiet) ["42"] siteHeap = Built EmptyString siteHeap.
Proof.
  refine (URI_of_unregistered_handler (K := staticRouting) 1%nat (H_funcHTTP quiet) _ ["42"]
            siteHeap siteEcho siteRouter _ _ _ _).
  - vm_compute. reflexivity.
  - vm_compute. reflexivity.
  - vm_compute. reflexivity.
  - repeat (constructor; [discriminate|]). constructor.
Defined.

(** Both parameters of the user route are filled in. *)
Lemma URI_fills_first_route_witness :
  URI 1%nat (H_funcHTTP quiet) ["42"; "a.txt"] userHeap
  = Built "/users/42/files/a.txt" userHeap.
Proof.
  refine (URI_fills_first_route (K := staticRouting) 1%nat (H_funcHTTP quiet) _ userHeap
            siteEcho _ (routes siteRouter) _ []
            [("/users/", "id"); ("/files/", "name")] EmptyString ["42"; "a.txt"]
            _ _ _ _ _ _ _ _ _).
  - vm_compute. reflexivity.
  - vm_compute. reflexivity.
  - vm_compute. reflexivity.
  - vm_compute. reflexivity.
  - repeat (constructor; [discriminate|]). constructor.
  - reflexivity.
  - reflexivity.
  - reflexivity.
  - left. simpl. lia.
Defined.

(** Registering a route on the site and reversing it. *)
Lemma add_then_URI_witness :
  exists hp',
    add 1%nat "GET" "/users/:id" (H_funcHTTP quiet) siteHeap = Built tt hp' /\
    URI 1%nat (H_funcHTTP quiet) ["7"] hp' = Built "/users/7" hp'.
Proof.
  pose proof (fun hf hn t =>
    add_then_URI (K := staticRouting) 1%nat "GET" "/users/:id" (H_funcHTTP quiet)
      hf hn t siteHeap siteEcho siteRouter [("/users/", "id")] EmptyString ["7"]) as H.
  edestruct H as (hp' & Hadd & HURI & _).
  - vm_compute. reflexivity.
  - vm_compute. reflexivity.
  - reflexivity.
  - reflexivity.
  - vm_compute. reflexivity.
  - repeat (constructor; [discriminate|]). constructor.
  - vm_compute. reflexivity.
  - reflexivity.
  - left. simpl. lia.
  - exists hp'. split; [exact Hadd | exact HURI].
Defined.

(** [Any] on a new Echo: nine routes, one for each method. *)
Lemma Any_registers_every_method_witness :
  exists hp' Rt',
    Any 1%nat "/ping" (H_HandlerFunc (endpoint "pong")) newHeap = Built tt hp' /\
    routers hp' !! 1%nat = Some Rt' /\
    map Method (routes Rt') =
      ["CONNECT"; "DELETE"; "GET"; "HEAD"; "OPTIONS"; "PATCH"; "POST"; "PUT"; "TRACE"].
Proof.
  pose proof (fun hf hn =>
    Any_registers_every_method (K := staticRouting) 1%nat "/ping"
      (H_HandlerFunc (endpoint "pong")) hf hn newHeap newEcho newRouter) as H.
  edestruct H as (hp' & Rt' & HAny & HRt & Hroutes & _).
  - vm_compute. reflexivity.
  - vm_compute. reflexivity.
  - reflexivity.
  - reflexivity.
  - intros m t _. eexists. reflexivity.
  - exists hp', Rt'. split; [exact HAny|]. split; [exact HRt|].
    rewrite Hroutes. reflexivity.
Defined.

(** [Match] without methods on a new Echo is [Get]. *)
Lemma Match_defaults_to_GET_witness :
  Match 1%nat "/ping" (H_HandlerFunc (endpoint "pong")) [] newHeap
  = Get 1%nat "/ping" (H_HandlerFunc (endpoint "pong")) newHeap.
Proof.
  pose proof (fun hf hn =>
    Match_defaults_to_GET (K := staticRouting) 1%nat "/ping"
      (H_HandlerFunc (endpoint "pong")) hf hn [] newHeap newEcho newRouter) as H.
  edestruct H as (hp' & Rt' & _ & _ & _ & HGet).
  - vm_compute. reflexivity.
  - vm_compute. reflexivity.
  - reflexivity.
  - reflexivity.
  - intros m t. eexists. reflexivity.
  - apply HGet. reflexivity.
Defined.

(** A route of the group [/api] of the site shows among the routes of the site. *)
Lemma route_of_a_group_lands_in_the_parent_router_witness :
  exists g hp1 hp2,
    Group 1%nat "/api" [] siteHeap = Built g hp1 /\
    add g "GET" "/users" (H_HandlerFunc (endpoint "users")) hp1 = Built tt hp2 /\
    Routes 1%nat hp2 =
      Built (routes siteRouter ++ [mkRoute "GET" "/api/users" "core.HandlerFunc"])%list hp2.
Proof.
  pose proof (fun hf hn =>
    route_of_a_group_lands_in_the_parent_router (K := staticRouting) 1%nat "/api" [] []
      "GET" "/users" (H_HandlerFunc (endpoint "users")) hf hn siteHeap siteEcho siteRouter
      [observer "a"; observer "b"]) as H.
  edestruct H as (g & hp1 & hp2 & HG & Hadd & _ & HR & _).
  - constructor.
  - vm_compute. reflexivity.
  - vm_compute. reflexivity.
  - split; [simpl; lia | right; eexists; split; vm_compute; reflexivity].
  - split; vm_compute; reflexivity.
  - reflexivity.
  - reflexivity.
  - intros g. eexists. reflexivity.
  - exists g, hp1, hp2. split; [exact HG|]. split; [exact Hadd|]. exact HR.
Defined.

(** The failing route of the bare Echo: the client gets a 500. *)
Lemma chain_error_reaches_the_client_witness :
  exists w3,
    snd (ServeHTTP bareHeap 1%nat (ConnWriter 7) 1%nat (arrival "/fail")) = Returns tt w3 /\
    sent w3 = [WHeader (ConnWriter 7) 500;
               WBody (ConnWriter 7) ("Internal Server Error" ++ newline)] /\
    logged w3 = [PlainErr "boom"].
Proof.
  pose proof (fun j0 c h e' w1 E' w2 E0 C =>
    chain_error_reaches_the_client (K := staticRouting) bareHeap 1%nat (ConnWriter 7) 1%nat
      (arrival "/fail") j0 c h e' w1 E' [] (PlainErr "boom") w2 1%nat E0 C) as H.
  edestruct H as (w3 & Hrun & Hsent & Hlog & _).
  - vm_compute. reflexivity.
  - vm_compute. reflexivity.
  - split; vm_compute; reflexivity.
  - vm_compute. reflexivity.
  - reflexivity.
  - vm_compute. reflexivity.
  - vm_compute. reflexivity.
  - reflexivity.
  - exists w3. split; [exact Hrun|]. split.
    + rewrite Hsent. reflexivity.
    + rewrite Hlog. reflexivity.
Defined.


(** The panicking route of the bare Echo: no [pool.Put] in the journal. *)
Lemma a_panic_keeps_the_context_out_of_the_pool_witness :
  neverPuts (fst (ServeHTTP bareHeap 1%nat (ConnWriter 7) 1%nat (arrival "/crash"))).
Proof.
  pose proof (fun j0 c h e' w1 E' v w2 =>
    a_panic_keeps_the_context_out_of_the_pool (K := staticRouting) bareHeap 1%nat
      (ConnWriter 7) 1%nat (arrival "/crash") j0 c h e' w1 E' [] v w2) as H.
  edestruct H as (_ & Hj).
  - vm_compute. reflexivity.
  - vm_compute. reflexivity.
  - split; vm_compute; reflexivity.
  - left. vm_compute. reflexivity.
  - exact Hj.
Defined.

(** Debug mode switched on for the site. *)
Lemma SetDebug_reaches_the_default_handler_witness :
  exists hp',
    SetDebug 1%nat true siteHeap = Built tt hp' /\
    echos hp' !! 1%nat = Some (setDebugField true siteEcho).
Proof.
  destruct (SetDebug_reaches_the_default_handler (K := staticRouting) 1%nat true siteHeap siteEcho)
    as (hp' & Hset & HE & _).
  - vm_compute. reflexivity.
  - exists hp'. split; [exact Hset | exact HE].
Defined.

(** A handler of the site's own in place of the default one. *)
Lemma custom_error_handler_replaces_the_default_witness :
  exists hp',
    SetHTTPErrorHandler 1%nat (customHandler (fun _ c => Response_Write c "sorry")) siteHeap
    = Built tt hp' /\
    middlewareOf hp' 1%nat = middlewareOf siteHeap 1%nat.
Proof.
  destruct (custom_error_handler_replaces_the_default (K := staticRouting) 1%nat
              (fun _ c => Response_Write c "sorry") siteHeap siteEcho
              [observer "a"; observer "b"])
    as (hp' & Hset & Hmw & _).
  - vm_compute. reflexivity.
  - split; vm_compute; reflexivity.
  - exists hp'. split; [exact Hset | exact Hmw].
Defined.

(** A net/http middleware that hands another writer on: the handler
    writes to that one. *)
Lemma http_middleware_rebinds_the_context_witness :
  exists w',
    wrapHTTPMiddleware (fun next wr rq => x <- ret (ConnWriter 9, rq) ;; next (fst x) (snd x))
                       (endpoint "hello") 1%nat (served 1%nat liveContext)
    = Returns None w' /\
    sent w' = [WBody (ConnWriter 9) "hello"].
Proof.
  pose proof (fun wr' rq' wa Ca res wb =>
    http_middleware_rebinds_the_context
      (fun _ rq => ret (ConnWriter 9, rq)) (endpoint "hello") 1%nat liveContext
      (served 1%nat liveContext) wr' rq' wa Ca res wb) as H.
  edestruct H as (_ & Hrun).
  - vm_compute. reflexivity.
  - vm_compute. reflexivity.
  - vm_compute. reflexivity.
  - vm_compute. reflexivity.
  - eexists. split; [exact Hrun|]. vm_compute. reflexivity.
Defined.

(** A net/http middleware that never calls its successor. *)
Lemma http_middleware_that_answers_itself_ends_the_chain_witness :
  exists w',
    wrapHTTPMiddleware (fun _ => quiet) (endpoint "hello") 1%nat (served 1%nat liveContext)
    = Returns None w' /\
    sent w' = [].
Proof.
  pose proof (fun w' =>
    http_middleware_that_answers_itself_ends_the_chain
      quiet (endpoint "hello") 1%nat liveContext (served 1%nat liveContext) w') as H.
  eexists. split.
  - apply H.
    + vm_compute. reflexivity.
    + vm_compute. reflexivity.
    + vm_compute. reflexivity.
  - vm_compute. reflexivity.
Defined.

(** On a committed response the net/http middleware is passed over. *)
Lemma committed_response_skips_http_middleware_witness :
  composed (map wrapHTTPHandlerFuncMW [quiet; quiet]) (endpoint "hello") 1%nat
           (served 1%nat (commit 200 liveContext))
  = endpoint "hello" 1%nat (served 1%nat (commit 200 liveContext)).
Proof.
  refine (proj2 (committed_response_skips_http_middleware
                   [quiet; quiet] (endpoint "hello") 1%nat (commit 200 liveContext)
                   (served 1%nat (commit 200 liveContext)) _ _)).
  - vm_compute. reflexivity.
  - reflexivity.
Defined.


(** A page whose extension is on the blacklist a new Echo starts with. *)
Lemma ServeFile_refuses_blacklisted_extensions_witness :
  serveFileHandler (F := smallDisk) newBlackfile false ("www/page" ++ ".html") 1%nat
                   (served 1%nat liveContext)
  = Returns (Some (HTTPErr (mkHTTPError 404 "Not Found"))) (served 1%nat liveContext).
Proof.
  refine (proj1 (ServeFile_refuses_blacklisted_extensions (F := smallDisk) newBlackfile false
                   "www/page" "html" 1%nat (served 1%nat liveContext) _ _)).
  - reflexivity.
  - vm_compute. reflexivity.
Defined.

(** The directory [docs] of the small disk, without auto index: the 403
    comes from a directory that has no index page. *)
Lemma serveFile_errors_witness :
  exists d, Dir (FileServing := smallDisk) "www" "docs" = Some d /\ IsDir (Stat d) = true.
Proof.
  destruct (serveFile_errors (F := smallDisk) false (Dir (FileServing := smallDisk) "www")
              "docs" 1%nat (served 1%nat liveContext) (served 1%nat liveContext)
              (HTTPErr (mkHTTPError 403 "Forbidden")))
    as [(Hnone & _) | (d & Hd & Hdir & _)].
  - vm_compute. reflexivity.
  - vm_compute in Hnone. discriminate Hnone.
  - exists d. split; [exact Hd | exact Hdir].
Defined.

(** The directory [docs] of the small disk, with auto index: its listing. *)
Lemma directory_without_index_page_is_listed_witness :
  exists w',
    serveFile (F := smallDisk) true (Dir (FileServing := smallDisk) "www") "docs" 1%nat
              (served 1%nat liveContext) = Returns None w' /\
    bodies (sent w') =
      [("<pre>" ++ newline)%string;
       entryLine (mkFileInfo "a.txt" false);
       entryLine (mkFileInfo "img" true);
       ("</pre>" ++ newline)%string].
Proof.
  destruct (directory_without_index_page_is_listed (F := smallDisk)
              (Dir (FileServing := smallDisk) "www") "docs" docsDir
              [mkFileInfo "a.txt" false; mkFileInfo "img" true] 1%nat liveContext
              (served 1%nat liveContext))
    as (w' & Hrun & Hsent & _).
  - reflexivity.
  - reflexivity.
  - vm_compute. reflexivity.
  - reflexivity.
  - vm_compute. reflexivity.
  - exists w'. split; [exact Hrun | exact Hsent].
Defined.

(** A hook on the site is the first call of every request. *)
Lemma Hook_runs_before_everything_else_witness :
  exists hp',
    Hook 1%nat quiet siteHeap = Built tt hp' /\
    exists j, fst (ServeHTTP hp' 1%nat (ConnWriter 7) 1%nat (arrival "/hello"))
              = CallHook (ConnWriter 7) 1%nat :: j.
Proof.
  destruct (Hook_runs_before_everything_else (K := staticRouting) 1%nat quiet siteHeap siteEcho)
    as (hp' & HHook & _ & Hserve).
  - vm_compute. reflexivity.
  - exists hp'. split; [exact HHook|].
    exact (proj1 (Hserve (ConnWriter 7) 1%nat (arrival "/hello"))).
Defined.
